(** * DeepFRET-GUI: the analysis functions of [lib/math.py] and the trace
      import/export of [main.py], embedded in Rocq.

    Python and NumPy floats are IEEE-754 binary64 numbers, and so are Rocq's
    primitive floats: arithmetic and comparisons below are the ones the
    program runs, NaN and the infinities included.  Exceptions are an
    explicit result type.  The six intensity arrays of a trace always have
    one entry per frame, so they are kept as one list of frames. *)

From Stdlib Require Import ZArith List Bool Ascii String Lia Floats.
From Stdlib Require Import Permutation Sorted.
From Stdlib Require Uint63.
Import ListNotations.
Set Warnings "-inexact-float".

(** ** Python exceptions *)

Module Py.

Inductive exn : Set :=
| ValueError
| TypeError
| KeyError
| IndexError
| AttributeError
| LinAlgError.

Inductive result (A : Type) : Type :=
| Return (a : A)
| Raise (e : exn).

Arguments Return {A} a.
Arguments Raise {A} e.

Definition bind {A B : Type} (r : result A) (k : A -> result B) : result B :=
  match r with
  | Return a => k a
  | Raise e => Raise e
  end.

End Py.

Import Py.
Notation "x <- r ;; k" := (Py.bind r (fun x => k))
  (at level 61, r at next level, right associativity).

(** ** NumPy ufuncs on binary64 *)

Module Np.
Local Open Scope float_scope.

Definition isnan (x : float) : bool := negb (x =? x).

(** [np.maximum]: [(in1 >= in2 || isnan(in1)) ? in1 : in2]. *)
Definition maximum (in1 in2 : float) : float :=
  if (in2 <=? in1) || isnan in1 then in1 else in2.

(** [np.minimum]: [(in1 <= in2 || isnan(in1)) ? in1 : in2]. *)
Definition minimum (in1 in2 : float) : float :=
  if (in1 <=? in2) || isnan in1 then in1 else in2.

(** [np.clip(a, a_min, a_max)], which NumPy documents as
    [np.minimum(a_max, np.maximum(a, a_min))]. *)
Definition clip (a a_min a_max : float) : float :=
  minimum a_max (maximum a a_min).

(** [np.rint] (round half to even) for binary64: below 2^52 in magnitude
    adding and subtracting 2^52 rounds to an integer in the default rounding
    mode, and a zero result takes the sign of the argument; from 2^52 on
    (and for NaN and the infinities) every value is already integral. *)
Definition rint (y : float) : float :=
  if abs y <? 0x1p52 then
    let r := if y <? 0 then (y - 0x1p52) + 0x1p52
             else (y + 0x1p52) - 0x1p52 in
    if r =? 0 then y * 0 else r
  else y.

(** [np.round(x, decimals=4)], which is what [DataFrame.round(4)] applies to
    every float cell: scale by 10^4, [rint], scale back. *)
Definition round4 (x : float) : float := rint (x * 1e4) / 1e4.

(** A Python [int] used in float arithmetic. *)
Definition float_of_Z (z : Z) : float :=
  if (z <? 0)%Z then - of_uint63 (Uint63.of_Z (- z))
  else of_uint63 (Uint63.of_Z z).

Definition float_of_nat (n : nat) : float := float_of_Z (Z.of_nat n).

(** Elementwise binary operation on two arrays of one length. *)
Fixpoint map2 {A B C : Type} (f : A -> B -> C) (l : list A) (l' : list B)
  : list C :=
  match l, l' with
  | a :: t, b :: t' => f a b :: map2 f t t'
  | _, _ => []
  end.

(** [a.sum()] of a one-dimensional array: an array of fewer than eight
    entries, as the class vectors here, is added up left to right. *)
Definition sum (l : list float) : float :=
  match l with
  | [] => 0
  | x :: t => fold_left PrimFloat.add t x
  end.

(** [np.roll(a, -1)]. *)
Definition roll_m1 {A : Type} (l : list A) : list A :=
  match l with
  | [] => []
  | x :: t => t ++ [x]
  end.

(** [np.diff] on an integer array. *)
Definition diff (l : list Z) : list Z :=
  match l with
  | [] => []
  | _ :: t => map2 (fun prev cur => (cur - prev)%Z) l t
  end.

(** [np.argmax] of a boolean (0/1) array: the first index holding the
    maximum, so the first [true], or 0 when there is none; an empty array
    raises. *)
Fixpoint first_true (l : list bool) : option nat :=
  match l with
  | [] => None
  | b :: t => if b then Some 0%nat else option_map S (first_true t)
  end.

Definition argmax (l : list bool) : result nat :=
  match l with
  | [] => Raise ValueError
  | _ => Return (match first_true l with Some i => i | None => 0%nat end)
  end.

(** [np.argmin] of a float array: the scan replaces the minimum when
    [!(a[i] >= mp)] and stops at the first NaN. *)
Fixpoint argmin_scan (mp : float) (min_ind i : nat) (l : list float) : nat :=
  match l with
  | [] => min_ind
  | x :: t =>
      if negb (mp <=? x) then
        if isnan x then i else argmin_scan x i (S i) t
      else argmin_scan mp min_ind (S i) t
  end.

Definition argmin (l : list float) : result nat :=
  match l with
  | [] => Raise ValueError
  | x :: t => Return (if isnan x then 0%nat else argmin_scan x 0 1 t)
  end.

(** The order NumPy sorts and selects doubles by, NaN last:
    [a < b || (b != b && a == a)]. *)
Definition less (a b : float) : bool :=
  (a <? b) || (isnan b && negb (isnan a)).

(** [np.argpartition(a, kth)].  For [kth < 3] NumPy's introselect runs
    [dumb_select]: [kth + 1] rounds of selection sort on the index array,
    each round scanning the rest for its first strict minimum and swapping
    it to the front. *)
Fixpoint min_scan (v : list float) (minidx : nat) (minval : float) (k : nat)
    (rest : list nat) : nat :=
  match rest with
  | [] => minidx
  | x :: rest' =>
      if less (nth x v nan) minval
      then min_scan v k (nth x v nan) (S k) rest'
      else min_scan v minidx minval (S k) rest'
  end.

(** [SORT_SWAP(i, minidx)] on the slice of the index array that starts at
    [i]; [m] is [minidx - i]. *)
Definition swap_front (m : nat) (l : list nat) : list nat :=
  match l, m with
  | [], _ => []
  | _ :: _, O => l
  | h :: t, S m' => nth m' t h :: firstn m' t ++ h :: skipn (S m') t
  end.

Fixpoint dumb_select (v : list float) (tosort : list nat) (rounds : nat)
  : list nat :=
  match rounds, tosort with
  | O, _ => tosort
  | _, [] => []
  | S rounds', h :: t =>
      match swap_front (min_scan v 0 (nth h v nan) 1 t) tosort with
      | [] => []
      | h' :: t' => h' :: dumb_select v t' rounds'
      end
  end.

Definition argpartition (a : list float) (kth : nat) : result (list nat) :=
  if (kth <? List.length a)%nat
  then Return (dumb_select a (seq 0 (List.length a)) (S kth))
  else Raise ValueError.

End Np.

(** ** SciPy and pandas operations the program calls *)

Module Scipy.

(** The zero-padded window of odd size [2 * h + 1] centred at frame [i]. *)
Definition window_at (volume : list bool) (h i : nat) : list bool :=
  map (fun j => if (i + j <? h)%nat then false
                else nth (i + j - h) volume false)
      (seq 0 (2 * h + 1)).

(** A window of 0/1 values in ascending order. *)
Definition sorted (w : list bool) : list bool :=
  filter negb w ++ filter (fun b => b) w.

(** The element types of the arrays handed to [medfilt]. *)
Inductive dtype : Set := bool_ | int64 | float32 | float64.

(** [scipy.signal.medfilt(volume, kernel_size)] on a one-dimensional array
    of zeros and ones.  The dtype is checked first
    ([np.issubdtype(volume.dtype, np.integer)] or float32 or float64): a
    boolean array is rejected with [ValueError].  An even kernel size
    raises too; otherwise each output is the element of rank
    [kernel_size // 2] of the sorted zero-padded window. *)
Definition medfilt (dt : dtype) (volume : list bool) (kernel_size : nat)
  : result (list bool) :=
  match dt with
  | bool_ => Raise ValueError
  | int64 | float32 | float64 =>
      if Nat.even kernel_size then Raise ValueError
      else
        let order := (kernel_size / 2)%nat in
        Return (map (fun i =>
                       nth order (sorted (window_at volume order i)) false)
                    (seq 0 (List.length volume)))
  end.

End Scipy.

Module Pd.
Local Open Scope float_scope.

(** The rows of the lifetime frame [lf] of [fit_hmm], with the columns the
    transition table is computed from. *)
Record LfRow : Set := mkLfRow {
  time : Z;
  y_fit : float;
  y_after : float;
  state_jump : nat
}.

(** [Series.diff()]: NaN first, then successive differences. *)
Definition series_diff (l : list float) : list float :=
  match l with
  | [] => []
  | _ :: t => nan :: Np.map2 (fun prev cur => cur - prev) l t
  end.

(** [cumsum] of a boolean series. *)
Fixpoint cumsum (acc : nat) (l : list bool) : list nat :=
  match l with
  | [] => []
  | b :: t => let acc' := if b then S acc else acc in acc' :: cumsum acc' t
  end.

(** [drop_duplicates(subset="state_jump", keep="last")]: a row stays when no
    later row has its key. *)
Fixpoint drop_duplicates_last (rows : list LfRow) : list LfRow :=
  match rows with
  | [] => []
  | r :: t =>
      if existsb (fun r' => (state_jump r' =? state_jump r)%nat) t
      then drop_duplicates_last t
      else r :: drop_duplicates_last t
  end.

(** [sorted(params, key=...)]: a stable sort that compares keys with [<]. *)
Fixpoint insert_by {A : Type} (key : A -> float) (x : A) (l : list A)
  : list A :=
  match l with
  | [] => [x]
  | y :: t => if key y <? key x then y :: insert_by key x t else x :: l
  end.

Definition sorted_by {A : Type} (key : A -> float) (l : list A) : list A :=
  fold_right (insert_by key) [] l.

End Pd.

(** ** lib/math.py *)

Module LibMath.
Local Open Scope float_scope.

(** One frame of the tuple
    [grn_int, grn_bg, acc_int, acc_bg, red_int, red_bg] that [correctDA]
    unpacks. *)
Record Frame : Set := mkFrame {
  grn_int : float;
  grn_bg : float;
  acc_int : float;
  acc_bg : float;
  red_int : float;
  red_bg : float
}.

Definition Intensities : Set := list Frame.

(** [correctDA], frame by frame: [(F_DA, I_DD, I_DA, I_AA)]. *)
Definition correctDA1 (fr : Frame) (alpha delta : float)
  : float * float * float * float :=
  let I_DD := grn_int fr - grn_bg fr in
  let I_DA := acc_int fr - acc_bg fr in
  let I_AA := red_int fr - red_bg fr in
  let F_DA := I_DA - (alpha * I_DD) - (delta * I_AA) in
  (F_DA, I_DD, I_DA, I_AA).

Definition correctDA (intensities : Intensities) (alpha delta : float)
  : list (float * float * float * float) :=
  map (fun fr => correctDA1 fr alpha delta) intensities.

(** The ratio of [calcFRET] before clipping. *)
Definition fret_ratio (c : float * float * float * float) : float :=
  let '(F_DA, I_DD, _, _) := c in F_DA / (I_DD + F_DA).

Definition default_clip_range : float * float := (-0.3, 1.3).

Definition calcFRET (intensities : Intensities) (alpha delta : float)
    (clip_range : float * float) : list float :=
  let '(cmin, cmax) := clip_range in
  map (fun c => Np.clip (fret_ratio c) cmin cmax)
      (correctDA intensities alpha delta).

(** The ratio of [calcStoi] before clipping. *)
Definition stoi_ratio (inv_beta gamma : float)
    (c : float * float * float * float) : float :=
  let '(F_DA, I_DD, _, I_AA) := c in
  (gamma * I_DD + F_DA) / (gamma * I_DD + F_DA + (inv_beta * I_AA)).

(** [calcStoi].  [inv_beta = 1 / beta] is taken in binary64 (what a NumPy
    scalar gives); every call in the repository leaves [beta] at 1. *)
Definition calcStoi (intensities : Intensities) (alpha delta beta gamma : float)
    (clip_range : float * float) : list float :=
  let '(cmin, cmax) := clip_range in
  let inv_beta := 1 / beta in
  map (fun c => Np.clip (stoi_ratio inv_beta gamma c) cmin cmax)
      (correctDA intensities alpha delta).

(** *** Correction factors *)

Section BetaGamma.

(** LAPACK's least-squares driver, which [np.linalg.lstsq] calls on a system
    with at least one row: a library routine, left abstract.  It gives the
    solution, or nothing when its singular value decomposition does not
    converge, as happens for a matrix with NaN entries. *)
Variable gelsd : list (float * float) -> list float -> option (float * float).

(** [np.linalg.lstsq(A, y, rcond=None)[0]] for a two-column [A]: the row
    counts must agree, for a system without rows NumPy sets the solution
    to zero ([if m == 0: x[...] = 0]), and a decomposition that does not
    converge raises [LinAlgError]. *)
Definition lstsq (A : list (float * float)) (y : list float)
  : result (float * float) :=
  if negb (List.length A =? List.length y)%nat then Raise LinAlgError
  else match A with
       | [] => Return (0, 0)
       | _ :: _ =>
           match gelsd A y with
           | Some x => Return x
           | None => Raise LinAlgError
           end
       end.

(** [leastsq_line]: [A = np.vstack([x, np.ones(len(x))]).T]. *)
Definition leastsq_line (x y : list float) : result (float * float) :=
  let A := map (fun xi => (xi, 1)) x in
  lstsq A y.

(** Boolean-mask indexing [a[cond]]; a mask of another length raises. *)
Fixpoint mask (a : list float) (cond : list bool) : result (list float) :=
  match a, cond with
  | [], [] => Return []
  | x :: a', c :: cond' =>
      r <- mask a' cond' ;;
      Return (if c then x :: r else r)
  | _, _ => Raise IndexError
  end.

Definition betaGammaFactor (E_app S_app : list float)
  : result (float * float) :=
  let cond := map (fun s => (0.3 <? s) && (s <? 0.7)) S_app in
  E_app' <- mask E_app cond ;;
  S_app' <- mask S_app cond ;;
  si <- leastsq_line E_app' (map (fun s => 1 / s) S_app') ;;
  let '(slope, intercept) := si in
  let beta := intercept + slope - 1 in
  let gamma := (intercept - 1) / (intercept + slope - 1) in
  if existsb Np.isnan [beta; gamma; slope; intercept]
  then Return (1, 1)
  else Return (beta, gamma).

End BetaGamma.

(** *** Hidden Markov model fit and transition table *)

(** A row of the returned lifetime table. *)
Record Transition : Set := mkTransition {
  y_before : float;
  y_after : float;
  lifetime : float
}.

(** [_heuristic_bic(s, tol)]. *)
Definition _heuristic_bic (s : list float) (tol : float) : result nat :=
  idx <- Np.argpartition s 2 ;;
  match idx with
  | best_idx :: sec_best_idx :: _ =>
      if (sec_best_idx <? best_idx)%nat then
        if nth sec_best_idx s nan <? nth best_idx s nan + tol
        then Return sec_best_idx
        else Return best_idx
      else Return best_idx
  | _ => Raise ValueError
  end.

(** Lines 241 to 264 of [fit_hmm]: the lifetime table of the idealized
    signal [hf["y_fit"]], whose [time] column is [index + 1]. *)
Definition lf_rows (y_fit : list float) : list Pd.LfRow :=
  let time := map (fun i => Z.of_nat i + 1)%Z (seq 0 (List.length y_fit)) in
  let y_after := Np.roll_m1 y_fit in
  let state_jump :=
    Pd.cumsum 0 (map (fun d => 0 <? abs d) (Pd.series_diff y_fit)) in
  Np.map2 (fun ty aj => Pd.mkLfRow (fst ty) (snd ty) (fst aj) (snd aj))
          (combine time y_fit) (combine y_after state_jump).

Definition transitions (y_fit : list float) : list Transition :=
  let lf := Pd.drop_duplicates_last (lf_rows y_fit) in
  let lifetime :=
    nan :: map Np.float_of_Z (Np.diff (map Pd.time lf)) in
  let lf :=
    Np.map2 (fun r l => mkTransition (Pd.y_fit r) (Pd.y_after r) l)
            lf lifetime in
  removelast lf.

Section FitHmm.

(** hmmlearn's [GMMHMM]: fitting, scoring and Viterbi decoding are library
    calls; so are [np.log] and the group median of pandas. *)
Variable GMMHMM : Type.
Variable fit : nat -> list (list float) -> result GMMHMM.
Variable score : GMMHMM -> list (list float) -> result float.
Variable predict : GMMHMM -> list (list float) -> list nat.
Variable log : float -> float.
Variable median : list float -> float.

Definition _bic (data : list (list float)) (k_states : nat) (logL : float)
  : float :=
  let p := (k_states * 4 + k_states ^ 2)%nat in
  let N := List.length data in
  -2 * logL + Np.float_of_nat p * log (Np.float_of_nat N).

(** The loop over [range(1, n_components_max + 1)]: [(scores, models)]. *)
Fixpoint fit_candidates (X : list (list float)) (ks : list nat)
  : result (list float * list GMMHMM) :=
  match ks with
  | [] => Return ([], [])
  | components :: ks' =>
      model <- fit components X ;;
      BIC <- match score model X with
             | Return logL => Return (_bic X components logL)
             | Raise ValueError => Return 10e5
             | Raise e => Raise e
             end ;;
      rest <- fit_candidates X ks' ;;
      Return (BIC :: fst rest, model :: snd rest)
  end.

(** [groupby("state")["y_obs"].transform("median")]. *)
Definition y_fit_of (state : list nat) (y_obs : list float) : list float :=
  map (fun st =>
         median (map snd (filter (fun sy => (fst sy =? st)%nat)
                                 (combine state y_obs))))
      state.

Definition fit_hmm (X : list (list float)) (y : list float)
    (n_components_max : nat) (bic_tol : float)
  : result (list float * list Z * list Transition) :=
  sm <- fit_candidates X (seq 1 n_components_max) ;;
  let '(scores, models) := sm in
  idx_best <- _heuristic_bic scores bic_tol ;;
  match nth_error models idx_best with
  | None => Raise IndexError
  | Some best_model =>
      let state := predict best_model X in
      if negb (List.length y =? List.length state)%nat then Raise ValueError
      else
        let idealized := y_fit_of state y in
        let idealized_idx :=
          map (fun i => Z.of_nat i + 1)%Z (seq 0 (List.length idealized)) in
        Return (idealized, idealized_idx, transitions idealized)
  end.

End FitHmm.

(** *** Gaussian mixture fit *)

(** [k_states] is either a [range] or a number. *)
Inductive KStates : Set :=
| KRange (ks : list nat)
| KFixed (k : nat).

(** What [fit_gaussian_mixture] returns: the tuple [(None, None)] or the
    dictionary [dict(params=..., bics=..., best_k=...)]. *)
Inductive MixtureFit : Set :=
| NoneNone
| FitDict (params : list (float * float * float)) (bics : list float)
          (best_k : option nat).

Section GaussianMixture.

(** scikit-learn's [GaussianMixture]: fitting, [bic] and the fitted
    attributes are library calls. *)
Variable GaussianMixture : Type.
Variable gm_fit : nat -> list float -> result GaussianMixture.
Variable gm_bic : GaussianMixture -> list float -> float.
Variable weights_ : GaussianMixture -> list float.
Variable means_ : GaussianMixture -> list float.
Variable covariances_ : GaussianMixture -> list float.

Fixpoint bics_of (arr : list float) (ks : list nat) : result (list float) :=
  match ks with
  | [] => Return []
  | k :: ks' =>
      g <- gm_fit k arr ;;
      rest <- bics_of arr ks' ;;
      Return (gm_bic g arr :: rest)
  end.

Definition fit_gaussian_mixture (arr : list float) (k_states : KStates)
  : result MixtureFit :=
  if (List.length arr <? 2)%nat then Return NoneNone
  else
    kb <- match k_states with
          | KRange ks =>
              bics_ <- bics_of arr ks ;;
              i <- Np.argmin bics_ ;;
              Return (S i, bics_, Some (S i))
          | KFixed k => Return (k, [], None)
          end ;;
    let '(n_components, bics_, best_k) := kb in
    g <- gm_fit n_components arr ;;
    let sigs := map sqrt (covariances_ g) in
    let params := combine (combine (means_ g) sigs) (weights_ g) in
    let params := Pd.sorted_by (fun tup => fst (fst tup)) params in
    Return (FitDict params bics_ best_k).

End GaussianMixture.

(** *** Sequence probabilities and bleach detection *)

(** A two-dimensional array: [shape1] columns in every row. *)
Record Matrix : Set := mkMatrix {
  shape1 : nat;
  rows : list (list float)
}.

(** [p.sum(axis=0)] of a matrix with at least one row. *)
Definition sum_axis0 (first : list float) (rest : list (list float))
  : list float :=
  fold_left (Np.map2 PrimFloat.add) rest first.

Definition seq_probabilities (yi : Matrix) (skip_threshold : float)
    (skip_column : nat) : result (list float * float) :=
  if negb (skip_column <? shape1 yi)%nat then Raise IndexError
  else
    let p := filter (fun row => nth skip_column row nan <? skip_threshold)
                    (rows yi) in
    let p :=
      match p with
      | first :: rest =>
          let n := Np.float_of_nat (List.length p) in
          let p := map (fun x => x / n) (sum_axis0 first rest) in
          let total := Np.sum p in
          map (fun x => x / total) p
      | [] => repeat 0 (shape1 yi)
      end in
    match nth_error p 2, nth_error p 3 with
    | Some p2, Some p3 => Return (p, p2 + p3)
    | _, _ => Raise IndexError
    end.

(** [find_bleach]: the comparison [p_bleach > threshold] gives a boolean
    array, and that is what [medfilt] receives. *)
Definition find_bleach (p_bleach : list float) (threshold : float)
    (window : nat) : result (option nat) :=
  is_bleached <-
    Scipy.medfilt Scipy.bool_ (map (fun p => threshold <? p) p_bleach)
                  window ;;
  bleach_frame <- Np.argmax is_bleached ;;
  if (bleach_frame =? 0)%nat then Return None
  else Return (Some bleach_frame).

(** *** Fully corrected E and S, bleach cut-off and trimming *)

(** [correctedES]: [(E, S)].  As in [calcStoi], [1 / beta] is taken in
    binary64. *)
Definition correctedES (intensities : Intensities)
    (alpha delta beta gamma : float) (clip_range : float * float)
  : list float * list float :=
  let '(cmin, cmax) := clip_range in
  let c := correctDA intensities alpha delta in
  let E := map (fun fc : float * float * float * float =>
                  let '(F_DA, I_DD, _, _) := fc in
                  let F_DD := gamma * I_DD in
                  F_DA / (F_DA + F_DD)) c in
  let S := map (fun fc : float * float * float * float =>
                  let '(F_DA, I_DD, _, I_AA) := fc in
                  let F_DD := gamma * I_DD in
                  let F_AA := (1 / beta) * I_AA in
                  (F_DA + F_DD) / (F_DD + F_DA + F_AA)) c in
  (map (fun e => Np.clip e cmin cmax) E,
   map (fun s => Np.clip s cmin cmax) S).

(** [min_real]: the entries that are not [None], then Python's [min], which
    keeps the first of the smallest entries; [None] when nothing is left. *)
Definition min_real (ls : list (option Z)) : option Z :=
  let ls := flat_map (fun x => match x with Some z => [z] | None => [] end)
                     ls in
  match ls with
  | [] => None
  | x :: t => Some (fold_left (fun m item => if (item <? m)%Z then item else m)
                              t x)
  end.

(** The Python slice [a[:stop]]: everything for [None], the first [stop]
    entries for a count, all but the last [-stop] for a negative one. *)
Definition slice_to {A : Type} (stop : option Z) (a : list A) : list A :=
  match stop with
  | None => a
  | Some k =>
      if (k <? 0)%Z then firstn (Z.to_nat (Z.of_nat (List.length a) + k)) a
      else firstn (Z.to_nat k) a
  end.

(** [dropBleachedFrames]. *)
Definition dropBleachedFrames (intensities : Intensities)
    (bleaches : list (option Z)) (max_frames : option Z)
    (alpha delta beta gamma : float) : list float * list float :=
  let bleach := min_real bleaches in
  let '(E_trace, S_trace) :=
    if (beta =? 1) && (gamma =? 1)
    then (calcFRET intensities alpha delta default_clip_range,
          calcStoi intensities alpha delta 1 1 default_clip_range)
    else correctedES intensities alpha delta beta gamma default_clip_range in
  (slice_to max_frames (slice_to bleach E_trace),
   slice_to max_frames (slice_to bleach S_trace)).

(** [np.array] of a list of per-trace arrays: a two-dimensional array when
    the arrays have one length (an empty list gives an empty array); lists
    of unequal lengths give no numeric array and the comparison that
    follows raises. *)
Definition rectangular (a : list (list float)) : bool :=
  match a with
  | [] => true
  | r :: _ => forallb (fun r' => (List.length r' =? List.length r)%nat) a
  end.

(** [trimES]: the mask [(S > -0.3) & (S < 1.3)] applied to both arrays;
    boolean indexing reads a two-dimensional array row by row. *)
Definition trimES (E S : list (list float))
  : result (list float * list float) :=
  if negb (rectangular E && rectangular S) then Raise ValueError
  else
    let idx := map (fun s => (-0.3 <? s) && (s <? 1.3)) (List.concat S) in
    if negb (forallb (fun p => (fst p =? snd p)%nat)
               (combine (map (@List.length float) E)
                        (map (@List.length float) S))
             && (List.length E =? List.length S)%nat)
    then Raise IndexError
    else
      E' <- mask (List.concat E) idx ;;
      S' <- mask (List.concat S) idx ;;
      Return (E', S').

(** *** Runs of equal values *)

Section Grouping.

(** The elements and Python's [==] on them. *)
Variable A : Type.
Variable eq : A -> A -> bool.

(** [all_equal]. *)
Definition all_equal (iterator : list A) : bool :=
  match iterator with
  | [] => true
  | first :: rest => forallb (fun r => eq first r) rest
  end.

(** [itertools.groupby(arr)] with the sizes of the groups: a group runs
    while the elements equal its first one. *)
Fixpoint groupby_from (key : A) (n : nat) (l : list A) : list (A * nat) :=
  match l with
  | [] => [(key, n)]
  | x :: t =>
      if eq key x then groupby_from key (S n) t
      else (key, n) :: groupby_from x 1 t
  end.

Definition groupby (arr : list A) : list (A * nat) :=
  match arr with
  | [] => []
  | x :: t => groupby_from x 1 t
  end.

(** The loop of [count_adjacent_values] from offset [n]:
    [(starts, lengths)]. *)
Fixpoint segments_from (arr : list A) (n : nat) (same : list (A * nat))
  : list nat * list nat :=
  match same with
  | [] => ([], [])
  | (_, l) :: rest =>
      let _len := List.length (firstn l (skipn n arr)) in
      let _idx := n in
      let '(starts, lengths) := segments_from arr (n + l) rest in
      (_idx :: starts, _len :: lengths)
  end.

Definition count_adjacent_values (arr : list A) : list nat * list nat :=
  segments_from arr 0 (groupby arr).

End Grouping.

End LibMath.

(** ** main.py: ASCII export and import of traces *)

Module Main.
Import LibMath.
Local Open Scope float_scope.
Local Open Scope string_scope.

(** A pandas [DataFrame] of floats, column by column. *)
Definition DataFrame : Set := list (string * list float).

Definition columns (df : DataFrame) : list string := map fst df.

Definition has_column (name : string) (df : DataFrame) : bool :=
  existsb (String.eqb name) (columns df).

(** [pd.DataFrame({...})] from arrays, which must all have one length. *)
Definition DataFrame_of (cols : list (string * list float))
  : result DataFrame :=
  match cols with
  | [] => Return []
  | (_, c) :: _ =>
      if forallb (fun nc => (List.length (snd nc) =? List.length c)%nat) cols
      then Return cols
      else Raise ValueError
  end.

(** [df.round(4)]. *)
Definition round (df : DataFrame) : DataFrame :=
  map (fun nc => (fst nc, map Np.round4 (snd nc))) df.

(** [df.columns = names]: a list of another length raises [ValueError]. *)
Definition set_columns (names : list string) (df : DataFrame)
  : result DataFrame :=
  if (List.length names =? List.length df)%nat
  then Return (combine names (map snd df))
  else Raise ValueError.

(** [df[name].values]: a missing column raises [KeyError]. *)
Fixpoint getitem (df : DataFrame) (name : string) : result (list float) :=
  match df with
  | [] => Raise KeyError
  | (n, c) :: df' => if String.eqb n name then Return c else getitem df' name
  end.

Fixpoint getitems (df : DataFrame) (names : list string)
  : result (list (list float)) :=
  match names with
  | [] => Return []
  | n :: names' =>
      c <- getitem df n ;;
      cs <- getitems df names' ;;
      Return (c :: cs)
  end.

(** The rows of a two-dimensional array given by its columns
    ([df[cols].values]), and a column of it ([y_pred[:, j]]). *)
Definition values (n_rows : nat) (cols : list (list float)) : Matrix :=
  mkMatrix (List.length cols)
           (map (fun i => map (fun c => nth i c nan) cols) (seq 0 n_rows)).

Definition column (j : nat) (m : Matrix) : result (list float) :=
  if (j <? shape1 m)%nat
  then Return (map (fun row => nth j row nan) (rows m))
  else Raise IndexError.

(** [c.strip(".")]. *)
Fixpoint lstrip_period (s : string) : string :=
  match s with
  | String "."%char s' => lstrip_period s'
  | _ => s
  end.

Fixpoint rstrip_period (s : string) : string :=
  match s with
  | EmptyString => EmptyString
  | String c s' =>
      match rstrip_period s' with
      | EmptyString =>
          if Ascii.eqb c "."%char then EmptyString else String c EmptyString
      | r => String c r
      end
  end.

Definition strip_period (s : string) : string :=
  rstrip_period (lstrip_period s).

(** Modelled from the spec: [TraceChannel] and [TraceContainer] of
    [lib/container.py], which is not among the sources.  A trace holds, per
    channel, the raw intensity, its background and a bleach frame, and the
    derived E ([fret]) and S ([stoi]) sequences, the optional classifier
    output with its summary, and the frame numbers; fields start unset. *)
Record TraceChannel : Set := mkTraceChannel {
  int : list float;
  bg : list float;
  bleach : option Z
}.

Record TraceContainer : Set := mkTraceContainer {
  movie : option string;
  n : Z;
  name : string;
  grn : TraceChannel;
  acc : TraceChannel;
  red : TraceChannel;
  fret : list float;
  stoi : list float;
  y_pred : option Matrix;
  y_class : option (list float);
  confidence : option float;
  frames : list Z;
  frames_max : option Z
}.

(** Modelled from the spec: [TraceContainer.intensities()], the six arrays
    in the order [correctDA] unpacks them (donor, FRET acceptor and direct
    acceptor, each raw value followed by its background), read frame by
    frame. *)
Fixpoint zip_frames (gi gb ai ab ri rb : list float) : Intensities :=
  match gi, gb, ai, ab, ri, rb with
  | g :: gi', g' :: gb', a :: ai', a' :: ab', r :: ri', r' :: rb' =>
      mkFrame g g' a a' r r' :: zip_frames gi' gb' ai' ab' ri' rb'
  | _, _, _, _, _, _ => []
  end.

Definition intensities (trace : TraceContainer) : Intensities :=
  zip_frames (int (grn trace)) (bg (grn trace))
             (int (acc trace)) (bg (acc trace))
             (int (red trace)) (bg (red trace)).

(** The "Donor bleaches at: ... - Acceptor bleaches at: ..." line: the two
    frames it names, or text the loader's [int(...)] rejects.  (A line of
    fewer than nine words is not represented.) *)
Inductive Bleaching : Set :=
| Bleaches (grn_bleach red_bleach : option Z)
| Unreadable.

(** Modelled from the spec: an ASCII trace file as its readers see it.
    [lib.misc.seek_line] and [lib.misc.csv_skip_to] are not among the
    sources: a file is given by its first line, by the lines [seek_line]
    finds ("FRET pair #n", "Movie filename: m", "Donor bleaches at ..."),
    each absent or present, and by the cells of its table as they are
    written, column by column: the number text of a cell stands for the
    binary64 value that was written, and an empty field, which is what
    [to_csv] writes for NaN, for NaN. *)
Record AsciiFile : Set := mkAsciiFile {
  first_line : string;
  fret_pair : option Z;
  movie_filename : option string;
  donor_bleaches : option Bleaching;
  table : DataFrame
}.

Definition colnames : list string :=
  ["D-Dexc-bg."; "A-Dexc-bg."; "A-Aexc-bg.";
   "D-Dexc-rw."; "A-Dexc-rw."; "A-Aexc-rw."; "S"; "E"].

Definition ml_cols : list string :=
  ["p_blch"; "p_aggr"; "p_stat"; "p_dyna"; "p_nois"; "p_scrm"].

(** [try: ... except KeyError: zeros]. *)
Definition backgrounds (df : DataFrame) (n_frames : nat)
  : result (list float * list float * list float) :=
  match (g <- getitem df "D-Dexc-bg" ;;
         a <- getitem df "A-Dexc-bg" ;;
         r <- getitem df "A-Aexc-bg" ;;
         Return (g, a, r)) with
  | Raise KeyError =>
      let zeros := repeat 0 n_frames in Return (zeros, zeros, zeros)
  | r => r
  end.

(** The lines of a table: the cells of every row, in the order of the
    columns. *)
Definition lines (df : DataFrame) : list (list float) :=
  map (fun i => map (fun c => nth i (snd c) nan) df)
      (seq 0 (List.length (match df with [] => [] | c :: _ => snd c end))).

(** A cell that is written: any value but NaN. *)
Definition is_field (x : float) : bool := negb (Np.isnan x).

(** A line read with [sep="\s+"]: white space separates the fields, so an
    empty field is not seen, the fields after it move to the left, and the
    line is filled up with NaN at its end. *)
Definition whitespace_fields (line : list float) : list float :=
  let fields := filter is_field line in
  (fields ++ repeat nan (List.length line - List.length fields))%list.

(** The lines of a table read with [sep="\s+"]; a line without any field
    is blank and skipped. *)
Definition parsed_lines (df : DataFrame) : list (list float) :=
  map whitespace_fields (filter (existsb is_field) (lines df)).

Definition parsed_column (df : DataFrame) (j : nat) : list float :=
  map (fun line => nth j line nan) (parsed_lines df).

(** [lib.misc.csv_skip_to(full_filename, line="D-Dexc", sep="\s+")], from
    its use: the table under the line of column names, read with white
    space as the separator. *)
Definition csv_skip_to (df : DataFrame) : DataFrame :=
  combine (columns df) (map (parsed_column df) (seq 0 (List.length df))).

(** The table of [loadTraceFromAscii] with the column names to use.  An iSMS
    file is read with [pd.read_csv(sep="\t", header=None)], cell for cell;
    the test [len(df.columns) == colnames] compares a number with a list
    and is never true, so the names are always set in the [else] part: all
    eight, or after a [ValueError] the last five.  Any other file is read
    with [csv_skip_to]. *)
Definition read_table (f : AsciiFile) : result (DataFrame * list string) :=
  if String.eqb (first_line f) "Exported by iSMS" then
    match set_columns colnames (table f) with
    | Raise ValueError =>
        df <- set_columns (skipn 3 colnames) (table f) ;;
        Return (df, skipn 3 colnames)
    | Raise e => Raise e
    | Return df => Return (df, colnames)
    end
  else Return (csv_skip_to (table f), colnames).

(** The channel arrays of [loadTraceFromAscii]: the three raw intensities,
    the three backgrounds and, when the table has classifier columns, the
    predictions with their summary. *)
Definition read_channels (df : DataFrame) (colnames : list string)
  : result (list float * list float * list float
            * (list float * list float * list float)
            * option (Matrix * (list float * float))) :=
  if has_column "D-Dexc_F" df then
    gi <- getitem df "D-Dexc_F" ;;
    ai <- getitem df "A-Dexc_I" ;;
    ri <- getitem df "A-Aexc_I" ;;
    let zeros := repeat 0 (List.length gi) in
    Return (gi, ai, ri, (zeros, zeros, zeros), None)
  else
    ml <- (if has_column "p_blch" df then
             cols <- getitems df ml_cols ;;
             let y_pred := values (List.length (hd [] cols)) cols in
             yc <- seq_probabilities y_pred 0.5 0 ;;
             Return ((colnames ++ ml_cols)%list, Some (y_pred, yc))
           else Return (colnames, None)) ;;
    let '(colnames, pred) := ml in
    df <- set_columns (map strip_period colnames) df ;;
    gi <- getitem df "D-Dexc-rw" ;;
    ai <- getitem df "A-Dexc-rw" ;;
    ri <- getitem df "A-Aexc-rw" ;;
    bgs <- backgrounds df (List.length gi) ;;
    Return (gi, ai, ri, bgs, pred).

(** [loadTraceFromAscii]; [basename] is [os.path.basename(full_filename)].
    A file without the "FRET pair" or the "Movie filename" line gives
    [None] ([except AttributeError: return None]); a table without rows
    raises at [trace.frames.max()]; a bleach line that is missing or not
    readable leaves the bleach frames unset
    ([except (ValueError, AttributeError): pass]). *)
Definition loadTraceFromAscii (basename : string) (f : AsciiFile)
  : result (option TraceContainer) :=
  dc <- read_table f ;;
  let '(df, colnames) := dc in
  match fret_pair f, movie_filename f with
  | Some pair_n, Some movie =>
      ch <- read_channels df colnames ;;
      let '(gi, ai, ri, (gb, ab, rb), pred) := ch in
      let '(grn_bleach, red_bleach) :=
        match donor_bleaches f with
        | Some (Bleaches g r) => (g, r)
        | Some Unreadable | None => (None, None)
        end in
      let grn := mkTraceChannel gi gb grn_bleach in
      let acc := mkTraceChannel ai ab None in
      let red := mkTraceChannel ri rb red_bleach in
      let its := zip_frames gi gb ai ab ri rb in
      let frames :=
        map (fun i => Z.of_nat i + 1)%Z (seq 0 (List.length gi)) in
      match frames with
      | [] => Raise ValueError
      | _ :: _ =>
          Return (Some (mkTraceContainer
            (Some movie) pair_n basename grn acc red
            (calcFRET its 0 0 default_clip_range)
            (calcStoi its 0 0 1 1 default_clip_range)
            (option_map fst pred)
            (option_map (fun p => fst (snd p)) pred)
            (option_map (fun p => snd (snd p)) pred)
            frames
            (Some (Z.of_nat (List.length gi)))))
      end
  | _, _ => Return None
  end.

(** The body of the loop of [exportTraces] for one trace: the columns of the
    table written with [to_csv] under the header lines. *)
Definition export_columns (trace : TraceContainer)
  : result (list (string * list float)) :=
  let base :=
    [("D-Dexc-bg", bg (grn trace)); ("A-Dexc-bg", bg (acc trace));
     ("A-Aexc-bg", bg (red trace)); ("D-Dexc-rw", int (grn trace));
     ("A-Dexc-rw", int (acc trace)); ("A-Aexc-rw", int (red trace));
     ("S", stoi trace); ("E", fret trace)] in
  match y_pred trace with
  | None => Return base
  | Some yp =>
      c0 <- column 0 yp ;; c1 <- column 1 yp ;; c2 <- column 2 yp ;;
      c3 <- column 3 yp ;; c4 <- column 4 yp ;; c5 <- column 5 yp ;;
      Return (base ++ combine ml_cols [c0; c1; c2; c3; c4; c5])%list
  end.

(** The file written for one trace: the header lines and the cells of the
    rounded table ([df.round(4)], then [to_csv], which writes NaN as an empty
    field). *)
Definition exportTrace (trace : TraceContainer) : result AsciiFile :=
  cols <- export_columns trace ;;
  df <- DataFrame_of cols ;;
  Return (mkAsciiFile
            "Exported by DeepFRET"
            (Some (n trace))
            (Some (match movie trace with Some m => m | None => "None" end))
            (Some (Bleaches (bleach (grn trace)) (bleach (red trace))))
            (round df)).

End Main.

(** ** Vocabulary of the properties *)

Import LibMath Main.

(** *** Clipping *)

Definition in_clip_range (cmin cmax e : float) : Prop :=
  (cmin <=? e)%float = true /\ (e <=? cmax)%float = true.

(** What clipping makes of a ratio: NaN stays NaN, every other value ends
    inside the range. *)
Definition clipped (cmin cmax ratio e : float) : Prop :=
  if Np.isnan ratio then Np.isnan e = true else in_clip_range cmin cmax e.

(** *** Idealized signals as runs *)

(** The test [abs(diff) > 0] of [fit_hmm] between a value and the next. *)
Definition jump (a b : float) : bool := (0 <? abs (b - a))%float.

(** The signal made of the runs [(value, length)]. *)
Fixpoint expand (runs : list (float * nat)) : list float :=
  match runs with
  | [] => []
  | (v, n) :: t => repeat v n ++ expand t
  end.

(** Runs are not empty and the value changes from one run to the next. *)
Fixpoint runs_ok (runs : list (float * nat)) : Prop :=
  match runs with
  | [] => True
  | (v, n) :: t =>
      (0 < n)%nat /\
      match t with [] => True | (v', _) :: _ => jump v v' = true end /\
      runs_ok t
  end.

(** One row per state change: the values before and after, and the length
    of the run before, which is NaN for the first run. *)
Fixpoint table_of_runs (first : bool) (runs : list (float * nat))
  : list Transition :=
  match runs with
  | (a, n) :: (((b, _) :: _) as t) =>
      mkTransition a b (if first then nan else Np.float_of_nat n)
        :: table_of_runs false t
  | _ => []
  end.

(** The rows of [lf_rows] from time [t] on, after the value [p] and with
    [c] state changes so far. *)
Fixpoint rows_from (t : Z) (p : float) (c : nat) (first : float)
    (y : list float) : list Pd.LfRow :=
  match y with
  | [] => []
  | x :: y' =>
      let c' := if jump p x then S c else c in
      Pd.mkLfRow t x (hd first y') c' :: rows_from (t + 1) x c' first y'
  end.

(** The rows [drop_duplicates] keeps: the last frame of every run. *)
Fixpoint kept (t : Z) (c : nat) (first : float) (runs : list (float * nat))
  : list Pd.LfRow :=
  match runs with
  | [] => []
  | (v, n) :: rs =>
      Pd.mkLfRow (t + Z.of_nat n - 1) v (hd first (expand rs)) c
        :: kept (t + Z.of_nat n) (S c) first rs
  end.

Fixpoint full_rest (first : float) (rs : list (float * nat))
  : list Transition :=
  match rs with
  | [] => []
  | (v, n) :: rs' =>
      mkTransition v (hd first (expand rs')) (Np.float_of_nat n)
        :: full_rest first rs'
  end.

(** *** Model-order selection *)

Definition score (s : list float) (i : nat) : float := nth i s nan.

(** No candidate scores lower than [best], in the order NumPy selects by. *)
Definition lowest (s : list float) (best : nat) : Prop :=
  (best < List.length s)%nat /\
  forall j, (j < List.length s)%nat ->
            Np.less (score s j) (score s best) = false.

(** No candidate other than [best] scores lower than [sec]. *)
Definition second_lowest (s : list float) (best sec : nat) : Prop :=
  (sec < List.length s)%nat /\ sec <> best /\
  forall j, (j < List.length s)%nat -> j <> best ->
            Np.less (score s j) (score s sec) = false.

(** One round of [dumb_select]. *)
Definition select_step (v : list float) (l : list nat) : list nat :=
  Np.swap_front (Np.min_scan v 0 (nth (hd 0%nat l) v nan) 1 (tl l)) l.

(** *** Trace files *)



Definition round_frame (fr : Frame) : Frame :=
  mkFrame (Np.round4 (grn_int fr)) (Np.round4 (grn_bg fr))
          (Np.round4 (acc_int fr)) (Np.round4 (acc_bg fr))
          (Np.round4 (red_int fr)) (Np.round4 (red_bg fr)).

(** A trace whose arrays all have [len] entries; classifier output, when
    present, has a row per frame and the six class columns. *)
Definition well_shaped (trace : TraceContainer) (len : nat) : Prop :=
  List.length (int (grn trace)) = len /\ List.length (bg (grn trace)) = len /\
  List.length (int (acc trace)) = len /\ List.length (bg (acc trace)) = len /\
  List.length (int (red trace)) = len /\ List.length (bg (red trace)) = len /\
  List.length (fret trace) = len /\ List.length (stoi trace) = len /\
  match y_pred trace with
  | None => True
  | Some yp => (6 <= shape1 yp)%nat /\ List.length (rows yp) = len
  end.

(** *** Sample data *)

Module Sample.
Local Open Scope float_scope.
Local Open Scope string_scope.

(** A trace as [getTracesSingleMovie] builds it: E and S computed from the
    intensities with the default factors. *)
Definition make_trace (gi gb ai ab ri rb : list float) (yp : option Matrix)
  : TraceContainer :=
  let its := zip_frames gi gb ai ab ri rb in
  mkTraceContainer
    (Some "movie.tif") 1 "Trace_movie_tif_pair1.txt"
    (mkTraceChannel gi gb None) (mkTraceChannel ai ab None)
    (mkTraceChannel ri rb None)
    (calcFRET its 0 0 default_clip_range)
    (calcStoi its 0 0 1 1 default_clip_range)
    yp None None
    (map (fun i => Z.of_nat i + 1)%Z (seq 0 (List.length gi)))
    (Some (Z.of_nat (List.length gi))).

(** One frame with a weak signal just above the background. *)
Definition weak_trace : TraceContainer :=
  make_trace [100.00014] [100] [100.00006] [100] [0] [0] None.

(** Two frames with values of at most four decimals, and classifier
    output. *)
Definition plain_trace : TraceContainer :=
  make_trace [100.5; 3] [100; 1] [100.25; 7] [100; 2] [50; 3] [1; 4]
    (Some (mkMatrix 6 [[0.125; 0.25; 0.25; 0.125; 0.125; 0.125];
                       [0.75; 0; 0; 0; 0; 0.25]])).


(** A mixture library that fits nothing: enough to run the early return of
    [fit_gaussian_mixture]. *)
Definition no_fit (k : nat) (arr : list float) : result unit := Raise ValueError.
Definition no_bic (g : unit) (arr : list float) : float := 0.
Definition no_attr (g : unit) : list float := [].

End Sample.

(** *** Bleach cut-off, trimming and runs of equal values *)

(** The entries of a list of bleach frames that are not [None]. *)
Definition reals (ls : list (option Z)) : list Z :=
  flat_map (fun x => match x with Some z => [z] | None => [] end) ls.

(** The number of frames a stop leaves of [n]. *)
Definition capped (stop : option Z) (n : nat) : nat :=
  match stop with
  | None => n
  | Some k => Nat.min n (Z.to_nat k)
  end.

Definition in_open_range (lo hi s : float) : Prop :=
  (lo <? s)%float = true /\ (s <? hi)%float = true.

(** A segment that is not empty and whose elements equal its first one. *)
Definition run_of {A : Type} (eq : A -> A -> bool) (seg : list A) : Prop :=
  match seg with
  | [] => False
  | key :: t => Forall (fun x => eq key x = true) t
  end.

(** The first element of a segment differs from the first element of the
    segment before it. *)
Fixpoint breaks {A : Type} (eq : A -> A -> bool) (segs : list (list A))
  : Prop :=
  match segs with
  | s1 :: ((s2 :: _) as rest) =>
      match s1, s2 with
      | key :: _, key' :: _ => eq key key' = false
      | _, _ => True
      end /\ breaks eq rest
  | _ => True
  end.

(** The start indices of consecutive segments of the given lengths. *)
Fixpoint offsets (n : nat) (lengths : list nat) : list nat :=
  match lengths with
  | [] => []
  | l :: t => n :: offsets (n + l) t
  end.

(** *** The transition table of any signal *)

(** One row per frame [t] whose value differs from the next: the two
    values, and the number of frames since the previous such frame [tprev],
    NaN when there is none. *)
Fixpoint changes (t : Z) (tprev : option Z) (y : list float)
  : list Transition :=
  match y with
  | x :: ((x' :: _) as y') =>
      if jump x x' then
        mkTransition x x'
          (match tprev with
           | None => nan
           | Some tp => Np.float_of_Z (t - tp)
           end)
          :: changes (t + 1) (Some t) y'
      else changes (t + 1) tprev y'
  | _ => []
  end.

(** The rows [drop_duplicates] keeps of a signal: the frame before every
    change, and the last frame. *)
Fixpoint kept_rows (t : Z) (c : nat) (first : float) (y : list float)
  : list Pd.LfRow :=
  match y with
  | [] => []
  | x :: y' =>
      match y' with
      | [] => [Pd.mkLfRow t x first c]
      | x' :: _ =>
          if jump x x'
          then Pd.mkLfRow t x x' c :: kept_rows (t + 1) (S c) first y'
          else kept_rows (t + 1) c first y'
      end
  end.

(** The kept rows with their lifetimes. *)
Fixpoint table_from (tprev : option Z) (K : list Pd.LfRow)
  : list Transition :=
  match K with
  | [] => []
  | r :: K' =>
      mkTransition (Pd.y_fit r) (Pd.y_after r)
        (match tprev with
         | None => nan
         | Some tp => Np.float_of_Z (Pd.time r - tp)
         end)
        :: table_from (Some (Pd.time r)) K'
  end.

(** *** Sorted parameters and lowest scores *)

Definition ascending (l : list float) : Prop :=
  StronglySorted (fun a b => (a <=? b)%float = true) l.

Definition no_nan (l : list float) : Prop :=
  Forall (fun x => Np.isnan x = false) l.

(** *** Classifier output in a trace file *)

(** The six class probabilities of a frame, rounded as the export does. *)
Definition round_row (row : list float) : list float :=
  map (fun j => Np.round4 (nth j row nan)) (seq 0 6).

(** *** Files and their columns *)

(** A table without empty cells: every column has [n] cells and none of
    them is NaN. *)
Definition filled (n : nat) (df : DataFrame) : Prop :=
  Forall (fun c => List.length (snd c) = n /\ no_nan (snd c)) df.



(** A column of a trace that the export writes as numbers: no cell is NaN
    after rounding, so none is written as an empty field. *)
Definition written (c : list float) : Prop := no_nan (map Np.round4 c).

(** Every raw intensity and background of the trace is written as a
    number. *)
Definition raw_written (trace : TraceContainer) : Prop :=
  written (bg (grn trace)) /\ written (bg (acc trace)) /\
  written (bg (red trace)) /\ written (int (grn trace)) /\
  written (int (acc trace)) /\ written (int (red trace)).

(** So is every other cell of the exported table: S, E and the six class
    columns of the classifier output. *)
Definition all_written (trace : TraceContainer) : Prop :=
  raw_written trace /\ written (stoi trace) /\ written (fret trace) /\
  match y_pred trace with
  | None => True
  | Some yp =>
      forall j, (j < 6)%nat ->
                written (map (fun row => nth j row nan) (rows yp))
  end.

(** *** Stand-ins for the fitting libraries *)

Module Stub.
Local Open Scope float_scope.
Local Open Scope string_scope.

(** A hidden Markov model library whose model of [k] states is the number
    [k]; scoring fails for two states, and decoding puts the last of three
    frames in a state of its own. *)
Definition fit (k : nat) (X : list (list float)) : result nat := Return k.

Definition score (m : nat) (X : list (list float)) : result float :=
  if (m =? 2)%nat then Raise ValueError else Return (Np.float_of_nat m).

Definition predict (m : nat) (X : list (list float)) : list nat :=
  [0; 0; 1]%nat.

Definition log (x : float) : float := x.

Definition median (l : list float) : float := hd 0 l.

(** A mixture library whose fit of [k] components is the number [k], with
    the lowest BIC at two components. *)
Definition fit_mixture (k : nat) (arr : list float) : result nat := Return k.

Definition bic (g : nat) (arr : list float) : float :=
  match g with
  | 1%nat => 30
  | 2%nat => 10
  | _ => 20
  end.

Definition weights_ (g : nat) : list float := [0.25; 0.75].
Definition means_ (g : nat) : list float := [0.75; 0.25].
Definition covariances_ (g : nat) : list float := [0.01; 0.04].

(** A DeepFRET file of one frame in which the cell of the direct acceptor
    intensity is empty, with [s] in the column S. *)
Definition gap_file (s : float) : AsciiFile :=
  mkAsciiFile "Exported by DeepFRET" (Some 1%Z) (Some "movie.tif")
    (Some (Bleaches None None))
    [("D-Dexc-bg", [100]); ("A-Dexc-bg", [100]); ("A-Aexc-bg", [1]);
     ("D-Dexc-rw", [101]); ("A-Dexc-rw", [103]); ("A-Aexc-rw", [nan]);
     ("S", [s]); ("E", [0.75])].

(** An iSMS file with three columns. *)
Definition narrow_file : AsciiFile :=
  mkAsciiFile "Exported by iSMS" (Some 1%Z) (Some "movie.tif")
    (Some (Bleaches None None))
    [("0", [100; 3]); ("1", [100; 7]); ("2", [50; 3])].

End Stub.

(** * Properties *)

(** ** Order facts of binary64, from the specification of the primitives *)

Module F64.
Local Open Scope float_scope.

Lemma SFcompare_antisym (a b : spec_float) :
  SFcompare b a = option_map CompOpp (SFcompare a b).
Proof.
  destruct a as [sa|sa| |sa ma ea], b as [sb|sb| |sb mb eb]; simpl;
    try reflexivity; try (destruct sa; reflexivity);
    try (destruct sb; reflexivity); try (destruct sa, sb; reflexivity).
  destruct sa, sb; simpl; try reflexivity;
    rewrite (Z.compare_antisym ea eb); destruct (ea ?= eb)%Z; simpl;
    try reflexivity;
    fold (Pos.compare ma mb); fold (Pos.compare mb ma);
    rewrite (Pos.compare_antisym ma mb); destruct (ma ?= mb)%positive;
    reflexivity.
Qed.

Lemma SFcompare_refl (a : spec_float) :
  a <> S754_nan -> SFcompare a a = Some Eq.
Proof.
  destruct a as [s|s| |s m e]; simpl; intros H; try congruence;
    try (destruct s; reflexivity).
  rewrite Z.compare_refl. fold (Pos.compare m m). rewrite Pos.compare_refl.
  destruct s; reflexivity.
Qed.

Lemma SFcompare_None (a b : spec_float) :
  SFcompare a b = None <-> a = S754_nan \/ b = S754_nan.
Proof.
  destruct a, b; simpl; split; intros H; try discriminate; auto;
    destruct H; discriminate.
Qed.

Lemma SFcompare_Lt_trans (a b c : spec_float) :
  SFcompare a b = Some Lt -> SFcompare b c = Some Lt ->
  SFcompare a c = Some Lt.
Proof.
  destruct a as [sa|sa| |sa ma ea], b as [sb|sb| |sb mb eb],
           c as [sc|sc| |sc mc ec];
    simpl; try discriminate;
    repeat match goal with s : bool |- _ => destruct s end; simpl;
    try discriminate; try reflexivity.
  all: fold (Pos.compare ma mb); fold (Pos.compare mb mc);
    fold (Pos.compare ma mc).
  all: destruct (Z.compare_spec ea eb), (Z.compare_spec eb ec),
         (Z.compare_spec ea ec);
    try discriminate; try reflexivity; try lia; subst.
  all: destruct (Pos.compare_spec ma mb), (Pos.compare_spec mb mc),
         (Pos.compare_spec ma mc);
    simpl; try discriminate; try reflexivity; try lia.
Qed.

Lemma isnan_spec (x : float) : Np.isnan x = true <-> Prim2SF x = S754_nan.
Proof.
  unfold Np.isnan. rewrite eqb_spec. unfold SFeqb.
  destruct (Prim2SF x) eqn:E.
  1,2,4: rewrite SFcompare_refl by discriminate; simpl; split; discriminate.
  simpl. tauto.
Qed.

Lemma isnan_false (x : float) : Np.isnan x = false <-> Prim2SF x <> S754_nan.
Proof.
  rewrite <- isnan_spec. destruct (Np.isnan x); split; congruence.
Qed.

Lemma leb_not_nan (x y : float) :
  (x <=? y) = true -> Np.isnan x = false /\ Np.isnan y = false.
Proof.
  rewrite leb_spec, !isnan_false. unfold SFleb.
  destruct (SFcompare (Prim2SF x) (Prim2SF y)) eqn:E; [|discriminate].
  intros _. split; intros H;
    assert (N : SFcompare (Prim2SF x) (Prim2SF y) = None)
      by (apply SFcompare_None; auto);
    congruence.
Qed.

Lemma ltb_not_nan (x y : float) :
  (x <? y) = true -> Np.isnan x = false /\ Np.isnan y = false.
Proof.
  rewrite ltb_spec, !isnan_false. unfold SFltb.
  destruct (SFcompare (Prim2SF x) (Prim2SF y)) eqn:E; [|discriminate].
  intros _. split; intros H;
    assert (N : SFcompare (Prim2SF x) (Prim2SF y) = None)
      by (apply SFcompare_None; auto);
    congruence.
Qed.

Lemma leb_refl (x : float) : Np.isnan x = false -> (x <=? x) = true.
Proof.
  rewrite isnan_false, leb_spec. intros H. unfold SFleb.
  now rewrite SFcompare_refl.
Qed.

Lemma leb_total (x y : float) :
  Np.isnan x = false -> Np.isnan y = false ->
  (x <=? y) = false -> (y <=? x) = true.
Proof.
  rewrite !isnan_false, !leb_spec. unfold SFleb. intros Hx Hy.
  rewrite (SFcompare_antisym (Prim2SF x) (Prim2SF y)).
  destruct (SFcompare (Prim2SF x) (Prim2SF y)) as [[]|] eqn:E; simpl;
    try discriminate; try reflexivity.
  apply SFcompare_None in E. tauto.
Qed.

Lemma ltb_trans (x y z : float) :
  (x <? y) = true -> (y <? z) = true -> (x <? z) = true.
Proof.
  rewrite !ltb_spec. unfold SFltb.
  destruct (SFcompare (Prim2SF x) (Prim2SF y)) as [[]|] eqn:E1;
    try discriminate.
  destruct (SFcompare (Prim2SF y) (Prim2SF z)) as [[]|] eqn:E2;
    try discriminate.
  intros _ _. now rewrite (SFcompare_Lt_trans _ _ _ E1 E2).
Qed.

Lemma ltb_irrefl (x : float) : (x <? x) = false.
Proof.
  rewrite ltb_spec. unfold SFltb.
  destruct (Prim2SF x) eqn:E; try reflexivity;
    rewrite SFcompare_refl by discriminate; reflexivity.
Qed.

(** [x - x] is zero or NaN, so its magnitude is never above zero. *)
Lemma sub_self_not_pos (x : float) : (0 <? abs (x - x)) = false.
Proof.
  rewrite ltb_spec, abs_spec, sub_spec. unfold SFltb, SF64sub.
  change (Prim2SF 0) with (S754_zero false).
  destruct (Prim2SF x) as [s|s| |s m e]; simpl.
  - destruct s; reflexivity.
  - destruct s; reflexivity.
  - reflexivity.
  - set (z := cond_Zopp s _).
    replace (IntDef.Z.sub z z) with 0%Z by (symmetry; apply Z.sub_diag).
    reflexivity.
Qed.

End F64.

(** ** Clipping of E and S *)

Section Clipping.
Local Open Scope float_scope.

Lemma clip_clipped (x cmin cmax : float) :
  (cmin <=? cmax) = true -> clipped cmin cmax x (Np.clip x cmin cmax).
Proof.
  intros H. destruct (F64.leb_not_nan _ _ H) as [Hlo Hhi].
  unfold clipped, Np.clip, Np.maximum, Np.minimum, in_clip_range.
  rewrite Hhi, orb_false_r.
  destruct (Np.isnan x) eqn:Hx.
  - rewrite orb_true_r.
    destruct (cmax <=? x) eqn:E; [|assumption].
    apply F64.leb_not_nan in E. destruct E; congruence.
  - rewrite orb_false_r.
    destruct (cmin <=? x) eqn:E1.
    + destruct (cmax <=? x) eqn:E2.
      * split; [assumption | now apply F64.leb_refl].
      * split; [assumption | now apply F64.leb_total].
    + destruct (cmax <=? cmin) eqn:E2.
      * split; [assumption | now apply F64.leb_refl].
      * split; [now apply F64.leb_refl | assumption].
Qed.

(** C5, as amended: for every intensity sequence and every clip range with
    [cmin <= cmax], [calcFRET] and [calcStoi] return one value per frame;
    the value lies within [[cmin, cmax]] unless the unclipped ratio of the
    frame is NaN (as for 0/0), and then the value is NaN. *)
Theorem calcFRET_calcStoi_clipped
    (intensities : Intensities) (alpha delta beta gamma cmin cmax : float) :
  (cmin <=? cmax) = true ->
  Forall2 (fun fr e =>
             clipped cmin cmax (fret_ratio (correctDA1 fr alpha delta)) e)
          intensities (calcFRET intensities alpha delta (cmin, cmax)) /\
  Forall2 (fun fr s =>
             clipped cmin cmax
                     (stoi_ratio (1 / beta) gamma (correctDA1 fr alpha delta))
                     s)
          intensities
          (calcStoi intensities alpha delta beta gamma (cmin, cmax)).
Proof.
  intros H. unfold calcFRET, calcStoi, correctDA. rewrite !map_map.
  split; induction intensities as [|fr I IH]; simpl; constructor;
    auto using clip_clipped.
Qed.

Lemma calcFRET_calcStoi_clipped_witness :
  Forall2 (fun fr e => clipped (-0.3) 1.3 (fret_ratio (correctDA1 fr 0 0)) e)
          [mkFrame 1 0 1 0 5 1; mkFrame 0 0 0 0 0 0]
          (calcFRET [mkFrame 1 0 1 0 5 1; mkFrame 0 0 0 0 0 0] 0 0
                    (-0.3, 1.3)) /\
  Forall2 (fun fr s =>
             clipped (-0.3) 1.3 (stoi_ratio (1 / 1) 1 (correctDA1 fr 0 0)) s)
          [mkFrame 1 0 1 0 5 1; mkFrame 0 0 0 0 0 0]
          (calcStoi [mkFrame 1 0 1 0 5 1; mkFrame 0 0 0 0 0 0] 0 0 1 1
                    (-0.3, 1.3)).
Proof.
  apply (calcFRET_calcStoi_clipped _ 0 0 1 1 (-0.3) 1.3). reflexivity.
Defined.

(** C5 as stated fails: a frame whose donor and acceptor signals equal
    their backgrounds gives 0/0, and both E and S are NaN, outside every
    range. *)
Lemma calcFRET_calcStoi_zero_frame_nan :
  calcFRET [mkFrame 0 0 0 0 0 0] 0 0 default_clip_range = [nan] /\
  calcStoi [mkFrame 0 0 0 0 0 0] 0 0 1 1 default_clip_range = [nan] /\
  ~ in_clip_range (-0.3) 1.3 nan.
Proof.
  split; [reflexivity | split; [reflexivity |]].
  unfold in_clip_range. vm_compute. intros [H _]. discriminate.
Qed.

End Clipping.

(** ** The transition table of [fit_hmm] *)

Section TransitionTable.
Local Open Scope float_scope.

Lemma jump_self (v : float) : jump v v = false.
Proof. apply F64.sub_self_not_pos. Qed.

Lemma rows_from_cons (t : Z) (p : float) (c : nat) (first x : float)
    (y' : list float) :
  rows_from t p c first (x :: y') =
  Pd.mkLfRow t x (hd first y') (if jump p x then S c else c)
    :: rows_from (t + 1) x (if jump p x then S c else c) first y'.
Proof. reflexivity. Qed.

Lemma lf_rows_gen (y : list float) (k : nat) (p : float) (c : nat)
    (first : float) :
  Np.map2 (fun ty aj => Pd.mkLfRow (fst ty) (snd ty) (fst aj) (snd aj))
    (combine (map (fun i => Z.of_nat i + 1)%Z (seq k (List.length y))) y)
    (combine (tl y ++ [first])
             (Pd.cumsum c
                (map (fun d => 0 <? abs d)
                     (Np.map2 (fun prev cur => cur - prev) (p :: y) y))))
  = rows_from (Z.of_nat k + 1) p c first y.
Proof.
  revert k p c. induction y as [|x y IH]; intros k p c; [reflexivity|].
  rewrite rows_from_cons.
  replace (Z.of_nat k + 1 + 1)%Z with (Z.of_nat (S k) + 1)%Z by lia.
  rewrite <- IH. destruct y; reflexivity.
Qed.

Lemma lf_rows_rows_from (x : float) (y : list float) :
  lf_rows (x :: y) = rows_from 1 x 0 x (x :: y).
Proof.
  rewrite rows_from_cons, jump_self.
  change (1 + 1)%Z with (Z.of_nat 1 + 1)%Z.
  rewrite <- lf_rows_gen. unfold lf_rows, Pd.series_diff, Np.roll_m1.
  destruct y; reflexivity.
Qed.

Lemma rows_from_keys (y : list float) (t : Z) (p : float) (c : nat)
    (first : float) :
  Forall (fun r => (c <= Pd.state_jump r)%nat) (rows_from t p c first y).
Proof.
  revert t p c. induction y as [|x y IH]; intros t p c; simpl; constructor.
  - simpl. destruct (jump p x); lia.
  - eapply Forall_impl; [|apply IH]. simpl. intros r.
    destruct (jump p x); lia.
Qed.

Lemma existsb_key_false (c : nat) (l : list Pd.LfRow) :
  Forall (fun r => (S c <= Pd.state_jump r)%nat) l ->
  existsb (fun r' => (Pd.state_jump r' =? c)%nat) l = false.
Proof.
  induction 1 as [|r l H _ IH]; simpl; [reflexivity|].
  rewrite IH, orb_false_r. apply Nat.eqb_neq. lia.
Qed.

Lemma existsb_key_head (t : Z) (v : float) (c : nat) (first : float)
    (n : nat) (rest : list float) :
  existsb (fun r' => (Pd.state_jump r' =? c)%nat)
          (rows_from t v c first (repeat v (S n) ++ rest)) = true.
Proof.
  change (repeat v (S n) ++ rest) with (v :: (repeat v n ++ rest)).
  rewrite rows_from_cons, jump_self. cbn [existsb Pd.state_jump].
  now rewrite Nat.eqb_refl.
Qed.

Lemma rows_from_change_prev (t : Z) (v v' : float) (c : nat) (first : float)
    (y : list float) :
  jump v v' = true ->
  rows_from t v c first (v' :: y) = rows_from t v' (S c) first (v' :: y).
Proof.
  intros H. rewrite !rows_from_cons, H, jump_self. reflexivity.
Qed.

Lemma ddl_run (n : nat) (t : Z) (v : float) (c : nat) (first : float)
    (rest : list float) :
  Forall (fun r => (S c <= Pd.state_jump r)%nat)
         (rows_from (t + Z.of_nat (S n)) v c first rest) ->
  Pd.drop_duplicates_last (rows_from t v c first (repeat v (S n) ++ rest)) =
  Pd.mkLfRow (t + Z.of_nat (S n) - 1) v (hd first rest) c
    :: Pd.drop_duplicates_last
         (rows_from (t + Z.of_nat (S n)) v c first rest).
Proof.
  revert t. induction n as [|n IH]; intros t H.
  - change (repeat v 1 ++ rest) with (v :: rest).
    rewrite rows_from_cons, jump_self.
    cbn [Pd.drop_duplicates_last Pd.state_jump].
    replace (t + Z.of_nat 1)%Z with (t + 1)%Z in * by lia.
    rewrite (existsb_key_false c _ H).
    f_equal. f_equal. lia.
  - change (repeat v (S (S n)) ++ rest)
      with (v :: (repeat v (S n) ++ rest)).
    rewrite rows_from_cons, jump_self.
    cbn [Pd.drop_duplicates_last Pd.state_jump].
    replace (t + Z.of_nat (S (S n)))%Z
      with (t + 1 + Z.of_nat (S n))%Z in * by lia.
    rewrite existsb_key_head. apply IH. assumption.
Qed.

Lemma ddl_runs (rs : list (float * nat)) (v : float) (n : nat) (t : Z)
    (c : nat) (first : float) :
  runs_ok ((v, n) :: rs) ->
  Pd.drop_duplicates_last (rows_from t v c first (expand ((v, n) :: rs))) =
  kept t c first ((v, n) :: rs).
Proof.
  revert v n t c.
  induction rs as [|[v' n'] rs IH]; intros v n t c (Hn & Hj & Hrs).
  - destruct n as [|n]; [lia|]. cbn [expand kept]. rewrite ddl_run.
    + reflexivity.
    + constructor.
  - destruct n as [|n]; [lia|].
    assert (Hn' : (0 < n')%nat) by (destruct Hrs; assumption).
    destruct n' as [|n']; [lia|].
    change (expand ((v, S n) :: (v', S n') :: rs))
      with (repeat v (S n) ++ expand ((v', S n') :: rs)).
    assert (E : rows_from (t + Z.of_nat (S n)) v c first
                          (expand ((v', S n') :: rs)) =
                rows_from (t + Z.of_nat (S n)) v' (S c) first
                          (expand ((v', S n') :: rs))).
    { change (expand ((v', S n') :: rs))
        with (v' :: (repeat v' n' ++ expand rs)).
      now apply rows_from_change_prev. }
    rewrite ddl_run.
    + rewrite E, IH by assumption. reflexivity.
    + rewrite E. apply rows_from_keys.
Qed.

Lemma lifetimes_kept (rs : list (float * nat)) (tprev t : Z) (c : nat)
    (first : float) :
  tprev = (t - 1)%Z ->
  Np.map2 (fun r l => mkTransition (Pd.y_fit r) (Pd.y_after r) l)
    (kept t c first rs)
    (map Np.float_of_Z
         (Np.map2 (fun prev cur => (cur - prev)%Z)
                  (tprev :: map Pd.time (kept t c first rs))
                  (map Pd.time (kept t c first rs)))) =
  full_rest first rs.
Proof.
  revert tprev t c.
  induction rs as [|[v n] rs IH]; intros tprev t c ->; [reflexivity|].
  cbn [kept map Np.map2 full_rest Pd.time Pd.y_fit Pd.y_after]. f_equal.
  - f_equal. unfold Np.float_of_nat. f_equal. lia.
  - apply IH. lia.
Qed.

Lemma lifetimes_cons (r : Pd.LfRow) (K : list Pd.LfRow) :
  Np.map2 (fun r l => mkTransition (Pd.y_fit r) (Pd.y_after r) l)
    (r :: K) (nan :: map Np.float_of_Z (Np.diff (map Pd.time (r :: K)))) =
  mkTransition (Pd.y_fit r) (Pd.y_after r) nan
    :: Np.map2 (fun r l => mkTransition (Pd.y_fit r) (Pd.y_after r) l) K
         (map Np.float_of_Z
              (Np.map2 (fun prev cur => (cur - prev)%Z)
                       (Pd.time r :: map Pd.time K) (map Pd.time K))).
Proof. reflexivity. Qed.

Lemma removelast_full (rs : list (float * nat)) (v : float) (n : nat)
    (b : bool) (first : float) :
  runs_ok ((v, n) :: rs) ->
  removelast
    (mkTransition v (hd first (expand rs))
                  (if b then nan else Np.float_of_nat n)
       :: full_rest first rs) =
  table_of_runs b ((v, n) :: rs).
Proof.
  revert v n b.
  induction rs as [|[v' n'] rs IH]; intros v n b (Hn & Hj & Hrs);
    [reflexivity|].
  assert (Hn' : (0 < n')%nat) by (destruct Hrs; assumption).
  destruct n' as [|n']; [lia|].
  change (table_of_runs b ((v, n) :: (v', S n') :: rs))
    with (mkTransition v v' (if b then nan else Np.float_of_nat n)
            :: table_of_runs false ((v', S n') :: rs)).
  rewrite <- (IH v' (S n') false Hrs). reflexivity.
Qed.

(** C1, as amended: for every idealized signal made of constant-value runs,
    the transition table has one row per state change, with the values
    before and after it, and excludes the final run; the row of the first
    change has lifetime NaN and every later row has the length of the run
    before the change as its lifetime. *)
Theorem transitions_of_runs (runs : list (float * nat)) :
  runs_ok runs ->
  transitions (expand runs) = table_of_runs true runs.
Proof.
  destruct runs as [|[v n] rs]; [reflexivity|]. intros H.
  assert (Hn : (0 < n)%nat) by (destruct H; assumption).
  unfold transitions.
  assert (E : lf_rows (expand ((v, n) :: rs)) =
              rows_from 1 v 0 v (expand ((v, n) :: rs))).
  { destruct n as [|n]; [lia|].
    change (expand ((v, S n) :: rs)) with (v :: (repeat v n ++ expand rs)).
    apply lf_rows_rows_from. }
  rewrite E, ddl_runs by assumption.
  change (kept 1 0 v ((v, n) :: rs))
    with (Pd.mkLfRow (1 + Z.of_nat n - 1) v (hd v (expand rs)) 0
            :: kept (1 + Z.of_nat n) 1 v rs).
  rewrite lifetimes_cons. cbn [Pd.time Pd.y_fit Pd.y_after].
  rewrite (lifetimes_kept rs (1 + Z.of_nat n - 1) (1 + Z.of_nat n) 1 v
                          eq_refl).
  apply (removelast_full rs v n true v H).
Qed.

(** For the runs [a, a, a, b, b, c] the table is [(a, b, NaN)] and
    [(b, c, 2)]. *)
Lemma transitions_of_runs_witness :
  transitions (expand [(1, 3%nat); (2, 2%nat); (3, 1%nat)]) =
  [mkTransition 1 2 nan; mkTransition 2 3 2].
Proof.
  apply (transitions_of_runs [(1, 3%nat); (2, 2%nat); (3, 1%nat)]).
  simpl. repeat split; try lia; reflexivity.
Defined.

(** C1 as stated fails: the first row does not carry the lifetime 3. *)
Lemma transitions_first_lifetime_nan :
  transitions [1; 1; 1; 2; 2; 3] =
    [mkTransition 1 2 nan; mkTransition 2 3 2] /\
  transitions [1; 1; 1; 2; 2; 3] <>
    [mkTransition 1 2 3; mkTransition 2 3 2].
Proof.
  split; [reflexivity|]. intros H.
  apply (f_equal (fun l => match l with
                           | t :: _ => Np.isnan (lifetime t)
                           | [] => false
                           end)) in H.
  vm_compute in H. discriminate.
Qed.

End TransitionTable.

(** ** Model-order selection *)

Section ModelOrder.

Lemma less_irrefl (a : float) : Np.less a a = false.
Proof.
  unfold Np.less. rewrite F64.ltb_irrefl. destruct (Np.isnan a); reflexivity.
Qed.

Lemma less_trans (a b c : float) :
  Np.less a b = true -> Np.less b c = true -> Np.less a c = true.
Proof.
  unfold Np.less. intros H1 H2.
  apply orb_true_iff in H1, H2. apply orb_true_iff.
  destruct H1 as [H1|H1], H2 as [H2|H2].
  - left. eapply F64.ltb_trans; eassumption.
  - right. apply andb_true_iff in H2. destruct H2 as [Hc _].
    apply F64.ltb_not_nan in H1. destruct H1 as [Ha _]. now rewrite Hc, Ha.
  - apply andb_true_iff in H1. destruct H1 as [Hb _].
    apply F64.ltb_not_nan in H2. destruct H2; congruence.
  - apply andb_true_iff in H1, H2. destruct H1 as [Hb _], H2 as [_ Hb'].
    rewrite Hb in Hb'. discriminate.
Qed.

Lemma min_scan_spec (v : list float) (rest pre : list nat) (minidx : nat)
    (minval : float) :
  (minidx < List.length pre)%nat ->
  minval = nth (nth minidx pre 0%nat) v nan ->
  (forall x, In x pre -> Np.less (nth x v nan) minval = false) ->
  let m := Np.min_scan v minidx minval (List.length pre) rest in
  (m < List.length (pre ++ rest))%nat /\
  forall x, In x (pre ++ rest) ->
            Np.less (nth x v nan) (nth (nth m (pre ++ rest) 0%nat) v nan) = false.
Proof.
  revert pre minidx minval.
  induction rest as [|x rest IH]; intros pre minidx minval Hlt Hval Hmin; cbn zeta.
  - simpl. rewrite app_nil_r, <- Hval. split; [lia|auto].
  - cbn [Np.min_scan].
    replace (pre ++ x :: rest) with ((pre ++ [x]) ++ rest)
      by (rewrite <- app_assoc; reflexivity).
    replace (S (List.length pre)) with (List.length (pre ++ [x]))
      by (rewrite length_app; simpl; lia).
    destruct (Np.less (nth x v nan) minval) eqn:E.
    + apply IH.
      * rewrite length_app. simpl. lia.
      * rewrite nth_middle. reflexivity.
      * intros y Hy. apply in_app_or in Hy.
        destruct Hy as [Hy|[<-|[]]]; [|apply less_irrefl].
        destruct (Np.less (nth y v nan) (nth x v nan)) eqn:E'; [|reflexivity].
        rewrite <- (Hmin y Hy). symmetry. eapply less_trans; eassumption.
    + apply IH.
      * rewrite length_app. simpl. lia.
      * rewrite app_nth1 by assumption. assumption.
      * intros y Hy. apply in_app_or in Hy.
        destruct Hy as [Hy|[<-|[]]]; auto.
Qed.

Lemma swap_front_perm (m : nat) (h : nat) (t : list nat) :
  (m < List.length (h :: t))%nat ->
  exists t', Np.swap_front m (h :: t) = nth m (h :: t) 0%nat :: t'
             /\ Permutation (nth m (h :: t) 0%nat :: t') (h :: t).
Proof.
  intros Hm. destruct m as [|m'].
  - exists t. split; reflexivity.
  - simpl in Hm. exists (firstn m' t ++ h :: skipn (S m') t). split.
    + cbn [Np.swap_front nth]. f_equal. apply nth_indep. lia.
    + cbn [nth]. 
      rewrite <- (firstn_skipn m' t) at 4.
      assert (Hsk : skipn m' t = nth m' t 0%nat :: skipn (S m') t).
      { clear -Hm. revert t Hm. induction m' as [|m' IH]; intros [|a t] Hm; simpl in *; try lia.
        - reflexivity.
        - apply IH. lia. }
      rewrite Hsk.
      transitivity (nth m' t 0%nat :: h :: firstn m' t ++ skipn (S m') t).
      * apply perm_skip. symmetry. apply Permutation_middle.
      * transitivity (h :: nth m' t 0%nat :: firstn m' t ++ skipn (S m') t).
        -- apply perm_swap.
        -- apply perm_skip. apply Permutation_middle.
Qed.

Lemma select_step_spec (v : list float) (h : nat) (t : list nat) :
  exists h' t',
    select_step v (h :: t) = h' :: t'
    /\ Permutation (h' :: t') (h :: t)
    /\ forall x, In x (h :: t) -> Np.less (nth x v nan) (nth h' v nan) = false.
Proof.
  unfold select_step. cbn [hd tl].
  destruct (min_scan_spec v t [h] 0 (nth h v nan)) as [Hm Hall].
  { simpl. lia. }
  { reflexivity. }
  { intros x [<-|[]]. apply less_irrefl. }
  cbn [nth List.length app] in Hm, Hall.
  destruct (swap_front_perm _ h t Hm) as (t' & E & P).
  eexists; exists t'. split; [exact E|]. split; [exact P|]. exact Hall.
Qed.

Lemma dumb_select_S (v : list float) (l : list nat) (r : nat) :
  l <> [] ->
  Np.dumb_select v l (S r) =
  match select_step v l with
  | [] => []
  | h' :: t' => h' :: Np.dumb_select v t' r
  end.
Proof. destruct l; [congruence|reflexivity]. Qed.

(** For three or more candidate scores [_heuristic_bic] returns the
    lowest-scoring index, unless the second-lowest-scoring index is smaller
    and its score is less than the lowest score plus the tolerance, in
    which case it returns that smaller index. *)
Theorem heuristic_bic_lowest (s : list float) (tol : float) :
  (3 <= List.length s)%nat ->
  exists best sec,
    lowest s best /\ second_lowest s best sec /\
    _heuristic_bic s tol =
    Return (if (sec <? best)%nat && (score s sec <? score s best + tol)%float
            then sec else best).
Proof.
  intros Hlen. unfold _heuristic_bic, Np.argpartition.
  destruct (Nat.ltb_spec 2 (List.length s)) as [_|]; [|lia].
  cbn [Py.bind].
  unfold lowest, second_lowest.
  remember (List.length s) as n eqn:Hn.
  destruct n as [|n']; [lia|]. cbn [seq].
  rewrite dumb_select_S by discriminate.
  destruct (select_step_spec s 0 (seq 1 n')) as (h1 & t1 & E1 & P1 & M1).
  rewrite E1.
  assert (L1 : List.length t1 = n').
  { apply Permutation_length in P1. simpl in P1. rewrite length_seq in P1.
    lia. }
  destruct t1 as [|a t1]; [simpl in L1; lia|].
  rewrite dumb_select_S by discriminate.
  destruct (select_step_spec s a t1) as (h2 & t2 & E2 & P2 & M2).
  rewrite E2.
  assert (In1 : forall j, (j < S n')%nat <-> In j (h1 :: a :: t1)).
  { intros j. split; intros H.
    - apply (Permutation_in j (Permutation_sym P1)).
      change (0%nat :: seq 1 n') with (seq 0 (S n')). apply in_seq. lia.
    - apply (Permutation_in j P1) in H.
      change (0%nat :: seq 1 n') with (seq 0 (S n')) in H.
      apply in_seq in H. lia. }
  assert (ND : NoDup (h1 :: a :: t1)).
  { apply (Permutation_NoDup (Permutation_sym P1)).
    change (0%nat :: seq 1 n') with (seq 0 (S n')). apply seq_NoDup. }
  assert (In2 : In h2 (a :: t1)).
  { apply (Permutation_in h2 P2). left. reflexivity. }
  exists h1, h2. split; [|split].
  - split.
    + apply In1. left. reflexivity.
    + intros j Hj. apply M1. apply (Permutation_in j P1), In1. exact Hj.
  - split; [|split].
    + apply In1. right. exact In2.
    + intros ->. inversion ND. contradiction.
    + intros j Hj Hne. apply M2. apply In1 in Hj.
      destruct Hj; [congruence|assumption].
  - unfold score.
    destruct (h2 <? h1)%nat; [|reflexivity].
    destruct (nth h2 s nan <? nth h1 s nan + tol)%float; reflexivity.
Qed.

Lemma heuristic_bic_lowest_witness :
  exists best sec,
    lowest [100; 90; 50]%float best /\
    second_lowest [100; 90; 50]%float best sec /\
    _heuristic_bic [100; 90; 50]%float 20 =
    Return (if (sec <? best)%nat
               && (score [100; 90; 50]%float sec
                   <? score [100; 90; 50]%float best + 20)%float
            then sec else best).
Proof.
  apply (heuristic_bic_lowest [100; 90; 50]%float 20%float). simpl. lia.
Defined.

(** C2: with fewer than three candidates the selection raises. *)
Theorem heuristic_bic_two_candidates :
  _heuristic_bic [100; 90]%float 20 = Raise ValueError /\
  _heuristic_bic [100]%float 20 = Raise ValueError.
Proof. split; reflexivity. Qed.

End ModelOrder.

(** ** Correction factors *)

Section BetaGammaFallback.
Local Open Scope float_scope.

(** C3: when every S lies outside (0.3, 0.7) the regression input is empty,
    the least-squares solution is zero and [betaGammaFactor] returns
    [(-1, 1)], not [(1, 1)]. *)
Theorem betaGammaFactor_empty_regression
    (gelsd : list (float * float) -> list float -> option (float * float)) :
  betaGammaFactor gelsd [0.5] [0.9] = Return (-1, 1).
Proof. reflexivity. Qed.

Lemma mask_nothing (a : list float) (cond : list bool) :
  List.length a = List.length cond ->
  Forall (fun c => c = false) cond ->
  mask a cond = Return [].
Proof.
  revert cond. induction a as [|x a IH]; intros [|c cond] L H; simpl in *;
    try discriminate; [reflexivity|].
  inversion H as [|? ? Hc H']; subst. rewrite IH by (auto; lia). reflexivity.
Qed.

(** For all arrays E and S of one length in which no S lies strictly
    between 0.3 and 0.7, [betaGammaFactor] returns [(-1, 1)] whatever the
    least-squares routine would do: the filtered input is empty, the
    solution is zero, and nothing is NaN, so the fallback to [(1, 1)] is
    not taken. *)
Theorem betaGammaFactor_nothing_in_range
    (gelsd : list (float * float) -> list float -> option (float * float))
    (E_app S_app : list float) :
  List.length E_app = List.length S_app ->
  Forall (fun s => (0.3 <? s) && (s <? 0.7) = false) S_app ->
  betaGammaFactor gelsd E_app S_app = Return (-1, 1).
Proof.
  intros L H. unfold betaGammaFactor.
  assert (C : Forall (fun c => c = false)
                     (map (fun s => (0.3 <? s) && (s <? 0.7)) S_app)).
  { apply Forall_forall. intros c Hc. apply in_map_iff in Hc.
    destruct Hc as (s & <- & Hs). rewrite Forall_forall in H. now apply H. }
  rewrite !mask_nothing by (rewrite ?length_map; auto).
  reflexivity.
Qed.

Lemma betaGammaFactor_nothing_in_range_witness :
  betaGammaFactor (fun _ _ => None) [0.5; 0.25; nan] [0.75; 0.25; nan]
  = Return (-1, 1).
Proof.
  apply (betaGammaFactor_nothing_in_range (fun _ _ => None)
           [0.5; 0.25; nan] [0.75; 0.25; nan]).
  - reflexivity.
  - repeat constructor.
Defined.

End BetaGammaFallback.

(** ** Bleach detection *)

Section FindBleach.
Local Open Scope float_scope.

(** C6: the thresholded series is a boolean array, which [medfilt]
    rejects, so [find_bleach] raises [ValueError] on every series: on one
    above the threshold from frame 0 on, where the claim gives [None], and
    on one above the threshold from frame 2 on, where the claim gives 2. *)
Theorem find_bleach_rejects_boolean_series :
  (forall (p_bleach : list float) (threshold : float) (window : nat),
     find_bleach p_bleach threshold window = Raise ValueError) /\
  find_bleach (repeat 0.9 9) 0.5 7 = Raise ValueError /\
  find_bleach ([0.1; 0.1] ++ repeat 0.9 9) 0.5 7 = Raise ValueError.
Proof. repeat split. Qed.

(** C10: on a series that is never above the threshold, and on the empty
    series, [find_bleach] raises [ValueError] as well; no series makes it
    return [None]. *)
Theorem find_bleach_never_bleached_raises :
  find_bleach (repeat 0.1 10) 0.5 7 = Raise ValueError /\
  find_bleach [] 0.5 7 = Raise ValueError /\
  (forall (p_bleach : list float) (threshold : float) (window : nat),
     find_bleach p_bleach threshold window <> Return None).
Proof. repeat split. discriminate. Qed.

End FindBleach.

(** ** Sequence probabilities and mixture fit *)

Section Summaries.
Local Open Scope float_scope.

(** C7: a frame whose bleach probability equals the threshold does not
    exceed it, yet [seq_probabilities] drops it: a single such frame gives
    the all-zero vector and confidence 0. *)
Theorem seq_probabilities_drops_threshold_frame :
  seq_probabilities (mkMatrix 6 [[0.5; 0.125; 0.125; 0.125; 0.0625; 0.0625]])
                    0.5 0
  = Return ([0; 0; 0; 0; 0; 0], 0).
Proof. reflexivity. Qed.

(** When no frame has a bleach probability below the threshold, the result
    is the all-zero vector, one entry per class, with confidence 0. *)
Theorem seq_probabilities_all_dropped (yi : Matrix) (skip_threshold : float) :
  (4 <= shape1 yi)%nat ->
  Forall (fun row => (nth 0 row nan <? skip_threshold) = false) (rows yi) ->
  seq_probabilities yi skip_threshold 0
  = Return (repeat 0 (shape1 yi), 0).
Proof.
  intros Hsh Hall. unfold seq_probabilities.
  destruct (Nat.ltb_spec 0 (shape1 yi)) as [_|]; [|lia]. cbn [negb].
  replace (filter _ (rows yi)) with (@nil (list float)).
  - destruct (shape1 yi) as [|[|[|[|k]]]]; try lia. reflexivity.
  - symmetry. induction Hall as [|row rs H _ IH]; simpl; [reflexivity|].
    now rewrite H.
Qed.

Lemma seq_probabilities_all_dropped_witness :
  seq_probabilities
    (mkMatrix 6 [[0.75; 0; 0; 0; 0; 0.25]; [1; 0; 0; 0; 0; 0]]) 0.5 0
  = Return (repeat 0 6, 0).
Proof.
  apply (seq_probabilities_all_dropped
           (mkMatrix 6 [[0.75; 0; 0; 0; 0; 0.25]; [1; 0; 0; 0; 0; 0]]) 0.5).
  - simpl. lia.
  - repeat constructor.
Defined.

(** C8, as amended: for every input with fewer than two samples
    [fit_gaussian_mixture] returns the pair [(None, None)] without raising,
    whatever the library does and whatever [k_states] is. *)
Theorem fit_gaussian_mixture_too_few
    (GaussianMixture : Type)
    (gm_fit : nat -> list float -> result GaussianMixture)
    (gm_bic : GaussianMixture -> list float -> float)
    (weights_ means_ covariances_ : GaussianMixture -> list float)
    (arr : list float) (k_states : KStates) :
  (List.length arr < 2)%nat ->
  fit_gaussian_mixture GaussianMixture gm_fit gm_bic weights_ means_
                       covariances_ arr k_states
  = Return NoneNone.
Proof.
  intros H. unfold fit_gaussian_mixture.
  destruct (Nat.ltb_spec (List.length arr) 2); [reflexivity|lia].
Qed.

Lemma fit_gaussian_mixture_too_few_witness :
  fit_gaussian_mixture unit Sample.no_fit Sample.no_bic Sample.no_attr
                       Sample.no_attr Sample.no_attr [0.5]
                       (KRange [1; 2; 3; 4; 5]%nat)
  = Return NoneNone.
Proof.
  apply fit_gaussian_mixture_too_few. simpl. lia.
Defined.

(** C8 as stated fails: the value returned for too few samples is not a
    record of parameters, scores and best order. *)
Lemma fit_gaussian_mixture_no_dict :
  ~ exists params bics best_k,
      fit_gaussian_mixture unit Sample.no_fit Sample.no_bic Sample.no_attr
                           Sample.no_attr Sample.no_attr [] (KFixed 2)
      = Return (FitDict params bics best_k).
Proof. intros (params & bics & best_k & H). discriminate. Qed.

End Summaries.

(** ** Trace files: the table as it is read *)

Section TextTable.
Local Open Scope string_scope.

Lemma list_of_nth (A : Type) (d : A) (l : list A) :
  map (fun i => nth i l d) (seq 0 (List.length l)) = l.
Proof.
  induction l as [|x l IH]; simpl; [reflexivity|]. f_equal.
  rewrite <- seq_shift, map_map. exact IH.
Qed.

Lemma filter_fields_app (a b : list float) :
  no_nan a -> filter is_field (a ++ b) = (a ++ filter is_field b)%list.
Proof.
  induction 1 as [|x a Hx _ IH]; simpl; [reflexivity|].
  unfold is_field at 1. rewrite Hx. simpl. now rewrite IH.
Qed.

(** The fields before the first empty one stay where they are. *)
Lemma whitespace_fields_prefix (line : list float) (k j : nat) :
  (k <= List.length line)%nat -> no_nan (firstn k line) -> (j < k)%nat ->
  nth j (whitespace_fields line) nan = nth j line nan.
Proof.
  intros Hk Hn Hj. unfold whitespace_fields.
  assert (E : filter is_field line
              = (firstn k line ++ filter is_field (skipn k line))%list).
  { rewrite <- (firstn_skipn k line) at 1. now apply filter_fields_app. }
  rewrite E, <- app_assoc, app_nth1 by (rewrite length_firstn; lia).
  rewrite <- (firstn_skipn k line) at 2.
  now rewrite app_nth1 by (rewrite length_firstn; lia).
Qed.

(** A column that has only filled columns before it is read as it was
    written. *)
Lemma parsed_column_prefix (df : DataFrame) (n k j : nat) :
  (k <= List.length df)%nat -> (j < k)%nat ->
  filled n (firstn k df) ->
  parsed_column df j = snd (nth j df (EmptyString, [])).
Proof.
  intros Hk Hj Hf. unfold filled in Hf. rewrite Forall_forall in Hf.
  assert (Hcol : forall j', (j' < k)%nat ->
            List.length (snd (nth j' df (EmptyString, []))) = n /\
            no_nan (snd (nth j' df (EmptyString, [])))).
  { intros j' Hj'. apply Hf.
    rewrite <- (firstn_skipn k df) at 1.
    rewrite app_nth1 by (rewrite length_firstn; lia).
    apply nth_In. rewrite length_firstn. lia. }
  assert (Hn : List.length (match df with [] => [] | c :: _ => snd c end) = n).
  { destruct df as [|c df]; [simpl in Hk; lia|].
    apply (Hcol 0%nat). lia. }
  assert (Hline : forall i, (i < n)%nat ->
            no_nan (firstn k (map (fun c => nth i (snd c) nan) df))).
  { intros i Hi. unfold no_nan. apply Forall_forall. intros x Hx.
    rewrite firstn_map in Hx. apply in_map_iff in Hx.
    destruct Hx as (c & <- & Hc). destruct (Hf c Hc) as [Lc Nc].
    unfold no_nan in Nc. rewrite Forall_forall in Nc. apply Nc.
    apply nth_In. lia. }
  unfold parsed_column, parsed_lines, lines. rewrite Hn.
  assert (Hkeep : filter (existsb is_field)
                    (map (fun i => map (fun c => nth i (snd c) nan) df)
                         (seq 0 n))
                  = map (fun i => map (fun c => nth i (snd c) nan) df)
                        (seq 0 n)).
  { apply forallb_filter_id. apply forallb_forall. intros line Hl.
    apply in_map_iff in Hl. destruct Hl as (i & <- & Hi). apply in_seq in Hi.
    specialize (Hline i ltac:(lia)).
    destruct df as [|c df]; [simpl in Hk; lia|].
    destruct k as [|k]; [lia|]. simpl in Hline.
    inversion Hline as [|? ? Hx _]; subst. simpl.
    unfold is_field at 1. now rewrite Hx. }
  rewrite Hkeep, !map_map.
  destruct (Hcol j Hj) as [Lj _].
  rewrite <- (list_of_nth _ nan (snd (nth j df (EmptyString, [])))) at 1.
  rewrite Lj. apply map_ext_in. intros i Hi. apply in_seq in Hi.
  rewrite (whitespace_fields_prefix _ k j).
  - transitivity
      (nth j (map (fun c : string * list float => nth i (snd c) nan) df)
           ((fun c : string * list float => nth i (snd c) nan)
              (EmptyString, []))).
    + f_equal. destruct i; reflexivity.
    + exact (map_nth (fun c : string * list float => nth i (snd c) nan)
                     df (EmptyString, []) j).
  - now rewrite length_map.
  - apply Hline. lia.
  - exact Hj.
Qed.

Lemma combine_fst_snd (A B : Type) (l : list (A * B)) :
  combine (map fst l) (map snd l) = l.
Proof. induction l as [|[a b] l IH]; simpl; [reflexivity|]. now rewrite IH. Qed.

(** A table without empty cells is read as it was written. *)
Lemma csv_skip_to_filled (df : DataFrame) (n : nat) :
  filled n df -> csv_skip_to df = df.
Proof.
  intros Hf. unfold csv_skip_to, columns.
  transitivity (combine (map fst df) (map snd df));
    [|apply combine_fst_snd].
  f_equal.
  transitivity (map (fun j => nth j (map snd df) [])
                    (seq 0 (List.length (map snd df))));
    [|apply list_of_nth].
  rewrite length_map. apply map_ext_in. intros j Hj. apply in_seq in Hj.
  rewrite (parsed_column_prefix df n (List.length df) j); try lia.
  - exact (eq_sym (map_nth snd df (EmptyString, []) j)).
  - now rewrite firstn_all.
Qed.

(** A line with an empty cell is read with its later fields one place to
    the left: the number written under S lands in the column before. *)
Lemma csv_skip_to_gap :
  csv_skip_to (table (Stub.gap_file 0.5)) =
  [("D-Dexc-bg", [100]); ("A-Dexc-bg", [100]); ("A-Aexc-bg", [1]);
   ("D-Dexc-rw", [101]); ("A-Dexc-rw", [103]); ("A-Aexc-rw", [0.5]);
   ("S", [0.75]); ("E", [nan])]%float.
Proof. reflexivity. Qed.

End TextTable.
(** ** Trace files: import *)

Section TraceFiles.
Local Open Scope string_scope.



















(** *** Export followed by import *)

Lemma zip_frames_round (gi gb ai ab ri rb : list float) :
  zip_frames (map Np.round4 gi) (map Np.round4 gb) (map Np.round4 ai)
             (map Np.round4 ab) (map Np.round4 ri) (map Np.round4 rb) =
  map round_frame (zip_frames gi gb ai ab ri rb).
Proof.
  revert gb ai ab ri rb.
  induction gi as [|g gi IH]; intros [|g' gb] [|a ai] [|a' ab] [|r ri] [|r' rb];
    simpl; try reflexivity.
  now rewrite IH.
Qed.

Lemma map_round_fixed (I : Intensities) :
  Forall (fun fr => round_frame fr = fr) I -> map round_frame I = I.
Proof.
  induction 1 as [|fr I H _ IH]; simpl; [reflexivity|]. now rewrite H, IH.
Qed.

Lemma sum_axis0_length (k : nat) (rest : list (list float)) (first : list float) :
  List.length first = k -> Forall (fun r => List.length r = k) rest ->
  List.length (sum_axis0 first rest) = k.
Proof.
  unfold sum_axis0. intros Hf Hr. revert first Hf.
  induction Hr as [|r rest Hr _ IH]; intros first Hf; simpl; [assumption|].
  apply IH. clear -Hf Hr. revert r k Hf Hr.
  induction first as [|a first IH]; intros [|b r] k Hf Hr; simpl in *; try lia.
  destruct k; [lia|]. f_equal. apply (IH r k); lia.
Qed.

Lemma seq_probabilities_values (n_rows : nat) (c0 c1 c2 c3 c4 c5 : list float) :
  exists yc, seq_probabilities (values n_rows [c0; c1; c2; c3; c4; c5])
                               0.5%float 0 = Return yc.
Proof.
  unfold seq_probabilities. cbn [values shape1 rows List.length Nat.ltb Nat.leb negb].
  set (R := map _ (seq 0 n_rows)).
  assert (HR : Forall (fun r : list float => List.length r = 6%nat) R).
  { unfold R. apply Forall_forall. intros r Hr. apply in_map_iff in Hr.
    destruct Hr as (i & <- & _). reflexivity. }
  set (P := filter _ R).
  assert (HP : Forall (fun r : list float => List.length r = 6%nat) P).
  { unfold P. apply Forall_forall. intros r Hr. apply filter_In in Hr.
    destruct Hr as [Hr _]. revert r Hr. now apply Forall_forall. }
  destruct P as [|first rest].
  - eexists. reflexivity.
  - inversion HP as [|? ? Hf Hrest]; subst.
    pose proof (sum_axis0_length 6 rest first Hf Hrest) as Hlen.
    set (n := Np.float_of_nat _).
    set (p1 := map (fun x => (x / n)%float) (sum_axis0 first rest)).
    set (total := Np.sum p1).
    set (p2 := map (fun x => (x / total)%float) p1).
    assert (H2 : List.length p2 = 6%nat)
      by (unfold p2, p1; now rewrite !length_map).
    destruct p2 as [|x0 [|x1 [|x2 [|x3 p2]]]]; simpl in H2; try lia.
    eexists. reflexivity.
Qed.

Lemma column_length (j : nat) (yp : Matrix) :
  (j < shape1 yp)%nat ->
  exists c, column j yp = Return c /\ List.length c = List.length (rows yp).
Proof.
  intros H. unfold column. destruct (Nat.ltb_spec j (shape1 yp)); [|lia].
  eexists. split; [reflexivity|]. now rewrite length_map.
Qed.

Lemma frames_nonempty (A : Type) (l : list A) (len : nat) :
  List.length l = S len ->
  exists z zs, map (fun i => Z.of_nat i + 1)%Z (seq 0 (List.length l)) = z :: zs.
Proof. intros ->. simpl. eauto. Qed.

Lemma filled_raw (gb ab rb gi ai ri : list float) (len : nat)
    (rest : DataFrame) :
  List.length gb = len -> List.length ab = len -> List.length rb = len ->
  List.length gi = len -> List.length ai = len -> List.length ri = len ->
  written gb -> written ab -> written rb ->
  written gi -> written ai -> written ri ->
  filled len
    (firstn 6
       (("D-Dexc-bg", map Np.round4 gb) :: ("A-Dexc-bg", map Np.round4 ab)
        :: ("A-Aexc-bg", map Np.round4 rb) :: ("D-Dexc-rw", map Np.round4 gi)
        :: ("A-Dexc-rw", map Np.round4 ai) :: ("A-Aexc-rw", map Np.round4 ri)
        :: rest)).
Proof.
  intros. unfold filled. cbn [firstn].
  repeat constructor; cbn [snd]; try assumption; now rewrite length_map.
Qed.

Ltac raw_columns_read n Hfill :=
  match goal with
  | |- context [csv_skip_to ?T] =>
      let P := fresh "P" in
      assert (P : forall j, (j < 6)%nat ->
                parsed_column T j = snd (nth j T (EmptyString, [])))
        by (intros j Hj;
            apply (parsed_column_prefix T n 6 j); [simpl; lia|exact Hj|];
            exact Hfill);
      pose proof (P 0%nat ltac:(lia)); pose proof (P 1%nat ltac:(lia));
      pose proof (P 2%nat ltac:(lia)); pose proof (P 3%nat ltac:(lia));
      pose proof (P 4%nat ltac:(lia)); pose proof (P 5%nat ltac:(lia));
      clear P
  end.

(** C4, as amended: for every trace with at least one frame whose raw
    intensities and backgrounds are all written as numbers, export followed
    by import succeeds and yields the E and S that [calcFRET] and
    [calcStoi] (default factors) give for the intensities and backgrounds
    rounded to 4 decimal places; they equal the trace's own E and S when
    those were computed the same way and the intensities and backgrounds
    already are 4-decimal values. *)
Theorem export_import_E_S (basename : string) (trace : TraceContainer)
    (len : nat) :
  well_shaped trace (S len) ->
  raw_written trace ->
  exists f trace',
    exportTrace trace = Return f /\
    loadTraceFromAscii basename f = Return (Some trace') /\
    fret trace' =
      calcFRET (map round_frame (intensities trace)) 0 0 default_clip_range /\
    stoi trace' =
      calcStoi (map round_frame (intensities trace)) 0 0 1 1
               default_clip_range /\
    (Forall (fun fr => round_frame fr = fr) (intensities trace) ->
     fret trace = calcFRET (intensities trace) 0 0 default_clip_range ->
     stoi trace = calcStoi (intensities trace) 0 0 1 1 default_clip_range ->
     fret trace' = fret trace /\ stoi trace' = stoi trace).
Proof.
  destruct trace
    as [mv pn nm [gi gb gbl] [ai ab abl] [ri rb rbl] Es Ss yp yc cf fr fm].
  unfold well_shaped, raw_written, intensities, exportTrace, export_columns.
  cbn [int bg bleach grn acc red fret stoi y_pred movie n].
  intros (Hgi & Hgb & Hai & Hab & Hri & Hrb & HE & HS & Hyp)
         (Wgb & Wab & Wrb & Wgi & Wai & Wri).
  destruct (frames_nonempty _ (map Np.round4 gi) len) as (z & zs & Hfr);
    [now rewrite length_map|].
  destruct yp as [yp|].
  - destruct Hyp as [Hsh Hrows].
    destruct (column_length 0 yp) as (c0 & E0 & L0); [lia|].
    destruct (column_length 1 yp) as (c1 & E1 & L1); [lia|].
    destruct (column_length 2 yp) as (c2 & E2 & L2); [lia|].
    destruct (column_length 3 yp) as (c3 & E3 & L3); [lia|].
    destruct (column_length 4 yp) as (c4 & E4 & L4); [lia|].
    destruct (column_length 5 yp) as (c5 & E5 & L5); [lia|].
    rewrite E0, E1, E2, E3, E4, E5. cbn [Py.bind app combine ml_cols].
    unfold DataFrame_of. cbn [forallb snd].
    rewrite Hgb, Hab, Hrb, Hgi, Hai, Hri, HS, HE, L0, L1, L2, L3, L4, L5,
      Hrows.
    rewrite Nat.eqb_refl. cbn [andb Py.bind].
    match goal with
    | |- exists f _, Return ?F = Return f /\ _ => exists F
    end.
    unfold loadTraceFromAscii, read_table.
    cbn [first_line fret_pair movie_filename donor_bleaches table round map
         fst snd String.eqb Ascii.eqb Bool.eqb Py.bind].
    raw_columns_read (S len)
      (filled_raw gb ab rb gi ai ri (S len)
         [("S", map Np.round4 Ss); ("E", map Np.round4 Es);
          ("p_blch", map Np.round4 c0); ("p_aggr", map Np.round4 c1);
          ("p_stat", map Np.round4 c2); ("p_dyna", map Np.round4 c3);
          ("p_nois", map Np.round4 c4); ("p_scrm", map Np.round4 c5)]
         Hgb Hab Hrb Hgi Hai Hri Wgb Wab Wrb Wgi Wai Wri).
    unfold csv_skip_to, read_channels.
    cbn [columns map fst List.length seq combine has_column existsb orb
         String.eqb Ascii.eqb Bool.eqb getitems getitem ml_cols hd Py.bind].
    match goal with
    | |- context [seq_probabilities (values ?n [?a; ?b; ?c; ?d; ?e; ?g]) _ _] =>
        destruct (seq_probabilities_values n a b c d e g) as (pc & Hpc);
        rewrite Hpc
    end.
    cbn [Py.bind set_columns colnames ml_cols app List.length map
         strip_period lstrip_period rstrip_period Nat.eqb combine snd fst
         getitem String.eqb Ascii.eqb Bool.eqb backgrounds].
    repeat match goal with
           | H : parsed_column _ _ = _ |- _ => rewrite H; clear H
           end.
    cbn [nth snd]. rewrite Hfr.
    eexists. split; [reflexivity|]. split; [reflexivity|].
    cbn [fret stoi]. rewrite zip_frames_round.
    split; [reflexivity|]. split; [reflexivity|].
    intros Hfix HE' HS'. rewrite (map_round_fixed _ Hfix). auto.
  - cbn [Py.bind]. unfold DataFrame_of. cbn [forallb snd].
    rewrite Hgb, Hab, Hrb, Hgi, Hai, Hri, HS, HE.
    rewrite Nat.eqb_refl. cbn [andb Py.bind].
    eexists. eexists. split; [reflexivity|].
    unfold loadTraceFromAscii, read_table.
    cbn [first_line fret_pair movie_filename donor_bleaches table round map
         fst snd String.eqb Ascii.eqb Bool.eqb Py.bind].
    raw_columns_read (S len)
      (filled_raw gb ab rb gi ai ri (S len)
         [("S", map Np.round4 Ss); ("E", map Np.round4 Es)]
         Hgb Hab Hrb Hgi Hai Hri Wgb Wab Wrb Wgi Wai Wri).
    unfold csv_skip_to, read_channels.
    cbn [columns map fst List.length seq combine has_column existsb orb
         String.eqb Ascii.eqb Bool.eqb getitems getitem ml_cols hd Py.bind].
    cbn [Py.bind set_columns colnames ml_cols app List.length map
         strip_period lstrip_period rstrip_period Nat.eqb combine snd fst
         getitem String.eqb Ascii.eqb Bool.eqb backgrounds].
    repeat match goal with
           | H : parsed_column _ _ = _ |- _ => rewrite H; clear H
           end.
    cbn [nth snd]. rewrite Hfr.
    split; [reflexivity|].
    cbn [fret stoi]. rewrite zip_frames_round.
    split; [reflexivity|]. split; [reflexivity|].
    intros Hfix HE' HS'. rewrite (map_round_fixed _ Hfix). auto.
Qed.

Lemma export_import_E_S_witness :
  exists f trace',
    exportTrace Sample.plain_trace = Return f /\
    loadTraceFromAscii "t.txt" f = Return (Some trace') /\
    fret trace' = fret Sample.plain_trace /\
    stoi trace' = stoi Sample.plain_trace.
Proof.
  destruct (export_import_E_S "t.txt" Sample.plain_trace 1)
    as (f & trace' & He & Hl & _ & _ & Heq).
  - unfold well_shaped. simpl. repeat split; lia.
  - repeat split; repeat constructor.
  - exists f, trace'. split; [exact He|]. split; [exact Hl|].
    apply Heq; [repeat constructor | reflexivity | reflexivity].
Defined.

(** C4 as stated fails: a weak signal just above the background has
    E = 0.3, and after export and import E = 0.5. *)
Lemma export_import_changes_E :
  fret Sample.weak_trace =
    calcFRET (intensities Sample.weak_trace) 0 0 default_clip_range /\
  exists f trace',
    exportTrace Sample.weak_trace = Return f /\
    loadTraceFromAscii "t.txt" f = Return (Some trace') /\
    map Np.round4 (fret Sample.weak_trace) = [0.3]%float /\
    map Np.round4 (fret trace') = [0.5]%float /\
    map Np.round4 (fret trace') <> map Np.round4 (fret Sample.weak_trace).
Proof.
  split; [reflexivity|]. eexists. eexists.
  split; [reflexivity|]. split; [reflexivity|].
  split; [reflexivity|]. split; [reflexivity|].
  intros H.
  apply (f_equal (fun l => match l with
                           | x :: _ => (x <? 0.4)%float
                           | [] => false
                           end)) in H.
  vm_compute in H. discriminate.
Qed.

End TraceFiles.

(** ** More order and arithmetic facts of binary64 *)

Module F64More.
Local Open Scope float_scope.

Lemma SFcompare_Eq_left (a b c : spec_float) :
  SFcompare a b = Some Eq -> SFcompare a c = SFcompare b c.
Proof.
  destruct a as [sa|sa| |sa ma ea], b as [sb|sb| |sb mb eb],
           c as [sc|sc| |sc mc ec];
    simpl; try discriminate; try reflexivity;
    repeat match goal with s : bool |- _ => destruct s end; simpl;
    try discriminate; try reflexivity.
  all: fold (Pos.compare ma mb);
    destruct (Z.compare_spec ea eb); try discriminate; subst;
    destruct (Pos.compare_spec ma mb); try discriminate; subst;
    reflexivity.
Qed.

Lemma SFcompare_Eq_right (a b c : spec_float) :
  SFcompare b c = Some Eq -> SFcompare a b = SFcompare a c.
Proof.
  intros H. rewrite (F64.SFcompare_antisym b a), (F64.SFcompare_antisym c a).
  now rewrite (SFcompare_Eq_left b c a H).
Qed.

Lemma leb_trans (x y z : float) :
  (x <=? y) = true -> (y <=? z) = true -> (x <=? z) = true.
Proof.
  rewrite !leb_spec. unfold SFleb.
  destruct (SFcompare (Prim2SF x) (Prim2SF y)) as [[]|] eqn:E1;
    try discriminate;
  destruct (SFcompare (Prim2SF y) (Prim2SF z)) as [[]|] eqn:E2;
    try discriminate; intros _ _.
  - now rewrite (SFcompare_Eq_left _ _ _ E1), E2.
  - now rewrite (SFcompare_Eq_left _ _ _ E1), E2.
  - now rewrite <- (SFcompare_Eq_right _ _ _ E2), E1.
  - now rewrite (F64.SFcompare_Lt_trans _ _ _ E1 E2).
Qed.

Lemma ltb_leb (x y : float) : (x <? y) = true -> (x <=? y) = true.
Proof.
  rewrite ltb_spec, leb_spec. unfold SFltb, SFleb.
  destruct (SFcompare (Prim2SF x) (Prim2SF y)) as [[]|]; congruence.
Qed.

Lemma nltb_leb (x y : float) :
  Np.isnan x = false -> Np.isnan y = false ->
  (y <? x) = false -> (x <=? y) = true.
Proof.
  rewrite !F64.isnan_false, ltb_spec, leb_spec. unfold SFltb, SFleb.
  intros Hx Hy. rewrite (F64.SFcompare_antisym (Prim2SF x) (Prim2SF y)).
  destruct (SFcompare (Prim2SF x) (Prim2SF y)) as [[]|] eqn:E; simpl;
    try discriminate; try reflexivity.
  apply F64.SFcompare_None in E. tauto.
Qed.

Lemma nleb_ltb (x y : float) :
  Np.isnan x = false -> Np.isnan y = false ->
  (x <=? y) = false -> (y <? x) = true.
Proof.
  rewrite !F64.isnan_false, ltb_spec, leb_spec. unfold SFltb, SFleb.
  intros Hx Hy. rewrite (F64.SFcompare_antisym (Prim2SF x) (Prim2SF y)).
  destruct (SFcompare (Prim2SF x) (Prim2SF y)) as [[]|] eqn:E; simpl;
    try discriminate; try reflexivity.
  apply F64.SFcompare_None in E. tauto.
Qed.

Lemma ltb_leb_trans (x y z : float) :
  (x <? y) = true -> (y <=? z) = true -> (x <? z) = true.
Proof.
  rewrite !ltb_spec, leb_spec. unfold SFltb, SFleb.
  destruct (SFcompare (Prim2SF x) (Prim2SF y)) as [[]|] eqn:E1;
    try discriminate;
  destruct (SFcompare (Prim2SF y) (Prim2SF z)) as [[]|] eqn:E2;
    try discriminate; intros _ _.
  - now rewrite <- (SFcompare_Eq_right _ _ _ E2), E1.
  - now rewrite (F64.SFcompare_Lt_trans _ _ _ E1 E2).
Qed.

Lemma SFadd_comm (a b : spec_float) :
  SFadd prec emax a b = SFadd prec emax b a.
Proof.
  destruct a as [sa|sa| |sa ma ea], b as [sb|sb| |sb mb eb]; simpl;
    try reflexivity; try (destruct sa, sb; reflexivity).
  rewrite (Z.min_comm eb ea). f_equal. apply Z.add_comm.
Qed.

Lemma float_add_comm (x y : float) : x + y = y + x.
Proof.
  apply Prim2SF_inj. rewrite !add_spec. apply SFadd_comm.
Qed.

End F64More.

(** ** Fully corrected E and S *)

Section Corrected.
Local Open Scope float_scope.

(** The stoichiometry of [correctedES] is the one [calcStoi] computes with
    the same factors and clip range. *)
Theorem correctedES_S_is_calcStoi
    (intensities : Intensities) (alpha delta beta gamma : float)
    (clip_range : float * float) :
  snd (correctedES intensities alpha delta beta gamma clip_range)
  = calcStoi intensities alpha delta beta gamma clip_range.
Proof.
  unfold correctedES, calcStoi. destruct clip_range as [cmin cmax].
  cbn [snd]. rewrite map_map. apply map_ext.
  intros [[[F_DA I_DD] I_DA] I_AA]. unfold stoi_ratio.
  now rewrite (F64More.float_add_comm F_DA (gamma * I_DD)).
Qed.

(** For a clip range with [cmin <= cmax], [correctedES] returns one E and
    one S per frame, and each of them is NaN or lies within the range. *)
Theorem correctedES_clipped
    (intensities : Intensities) (alpha delta beta gamma cmin cmax : float) :
  (cmin <=? cmax) = true ->
  List.length
    (fst (correctedES intensities alpha delta beta gamma (cmin, cmax)))
    = List.length intensities /\
  List.length
    (snd (correctedES intensities alpha delta beta gamma (cmin, cmax)))
    = List.length intensities /\
  forall x,
    In x (fst (correctedES intensities alpha delta beta gamma (cmin, cmax)))
    \/ In x (snd (correctedES intensities alpha delta beta gamma (cmin, cmax)))
    -> Np.isnan x = true \/ in_clip_range cmin cmax x.
Proof.
  intros H. unfold correctedES, correctDA. cbn [fst snd].
  rewrite !length_map. split; [reflexivity|]. split; [reflexivity|].
  assert (C : forall r, Np.isnan (Np.clip r cmin cmax) = true \/
                        in_clip_range cmin cmax (Np.clip r cmin cmax)).
  { intros r. pose proof (clip_clipped r cmin cmax H) as K.
    unfold clipped in K. destruct (Np.isnan r); auto. }
  intros x [Hx|Hx]; apply in_map_iff in Hx; destruct Hx as (r & <- & _);
    apply C.
Qed.

Lemma correctedES_clipped_witness :
  List.length
    (fst (correctedES [mkFrame 3 1 2 1 5 1; mkFrame 0 0 0 0 0 0]
                      0 0 1 1 (-0.3, 1.3))) = 2%nat.
Proof.
  exact (proj1 (correctedES_clipped
                  [mkFrame 3 1 2 1 5 1; mkFrame 0 0 0 0 0 0]
                  0 0 1 1 (-0.3) 1.3 eq_refl)).
Defined.

End Corrected.

(** ** Frames before bleaching *)

Section Bleached.
Local Open Scope float_scope.

Lemma in_reals (ls : list (option Z)) (z : Z) :
  In z (reals ls) <-> In (Some z) ls.
Proof.
  unfold reals. rewrite in_flat_map. split.
  - intros ([y|] & Hin & Hz); simpl in Hz; [|contradiction].
    destruct Hz as [<-|[]]. exact Hin.
  - intros H. exists (Some z). split; [exact H|now left].
Qed.

Lemma python_min_spec (t : list Z) (x : Z) :
  let m := fold_left (fun m item => if (item <? m)%Z then item else m) t x in
  In m (x :: t) /\ forall y, In y (x :: t) -> (m <= y)%Z.
Proof.
  revert x. induction t as [|a t IH]; intros x; cbn zeta.
  - simpl. split; [now left|]. intros y [<-|[]]. lia.
  - cbn [fold_left]. destruct (Z.ltb_spec a x).
    + destruct (IH a) as [Hin Hle]. split.
      * right. exact Hin.
      * intros y [<-|Hy]; [|now apply Hle].
        specialize (Hle a (or_introl eq_refl)). lia.
    + destruct (IH x) as [Hin Hle]. split.
      * destruct Hin as [<-|Hin]; [now left|right; now right].
      * intros y [<-|[<-|Hy]].
        -- apply Hle. now left.
        -- specialize (Hle x (or_introl eq_refl)). lia.
        -- apply Hle. now right.
Qed.

Lemma min_real_cases (ls : list (option Z)) :
  match min_real ls with
  | None => forall x, In x ls -> x = None
  | Some m => In (Some m) ls /\ forall z, In (Some z) ls -> (m <= z)%Z
  end.
Proof.
  unfold min_real. fold (reals ls).
  destruct (reals ls) as [|x t] eqn:E.
  - intros [z|] H; [|reflexivity].
    apply in_reals in H. rewrite E in H. destruct H.
  - destruct (python_min_spec t x) as [Hin Hle]. split.
    + apply in_reals. rewrite E. exact Hin.
    + intros z Hz. apply Hle. rewrite <- E. now apply in_reals.
Qed.

(** [min_real] returns [None] exactly when every entry is [None];
    otherwise it returns an entry of the list that no other entry is
    below. *)
Theorem min_real_spec (ls : list (option Z)) :
  (min_real ls = None <-> forall x, In x ls -> x = None) /\
  (forall m, min_real ls = Some m ->
     In (Some m) ls /\ forall z, In (Some z) ls -> (m <= z)%Z).
Proof.
  pose proof (min_real_cases ls) as H.
  destruct (min_real ls) as [m|]; split.
  - split; [discriminate|]. intros N. destruct H as [H _].
    specialize (N _ H). discriminate.
  - intros m' [= <-]. exact H.
  - split; auto.
  - discriminate.
Qed.

Lemma slice_to_nonneg (A : Type) (stop : option Z) (a : list A) :
  (forall k, stop = Some k -> (0 <= k)%Z) ->
  slice_to stop a = firstn (capped stop (List.length a)) a.
Proof.
  destruct stop as [k|]; simpl; intros H.
  - specialize (H k eq_refl). destruct (Z.ltb_spec k 0); [lia|].
    destruct (Nat.min_spec (List.length a) (Z.to_nat k)) as [[Hlt ->]|[Hle ->]].
    + rewrite firstn_all. apply firstn_all2. lia.
    + reflexivity.
  - now rewrite firstn_all.
Qed.

Lemma min_real_nonneg (bleaches : list (option Z)) :
  (forall z, In (Some z) bleaches -> (0 <= z)%Z) ->
  forall k, min_real bleaches = Some k -> (0 <= k)%Z.
Proof.
  intros H k Hk. pose proof (min_real_cases bleaches) as C.
  rewrite Hk in C. apply H, C.
Qed.

(** With frame numbers that are not negative, [dropBleachedFrames] returns
    the first frames of the E and S it returns without any cut-off: as many
    as the earliest bleach frame and [max_frames] allow. *)
Theorem dropBleachedFrames_prefix
    (intensities : Intensities) (bleaches : list (option Z))
    (max_frames : option Z) (alpha delta beta gamma : float) :
  (forall z, In (Some z) bleaches -> (0 <= z)%Z) ->
  (forall k, max_frames = Some k -> (0 <= k)%Z) ->
  let n_kept := capped max_frames
                  (capped (min_real bleaches) (List.length intensities)) in
  let whole := dropBleachedFrames intensities [] None
                                  alpha delta beta gamma in
  List.length (fst whole) = List.length intensities /\
  List.length (snd whole) = List.length intensities /\
  dropBleachedFrames intensities bleaches max_frames alpha delta beta gamma
    = (firstn n_kept (fst whole), firstn n_kept (snd whole)) /\
  List.length
    (fst (dropBleachedFrames intensities bleaches max_frames
                             alpha delta beta gamma)) = n_kept /\
  List.length
    (snd (dropBleachedFrames intensities bleaches max_frames
                             alpha delta beta gamma)) = n_kept.
Proof.
  intros Hb Hm n_kept whole.
  pose proof (min_real_nonneg bleaches Hb) as Hmin.
  unfold whole, dropBleachedFrames.
  change (min_real []) with (@None Z). cbn [slice_to].
  set (full := if (beta =? 1) && (gamma =? 1) then _ else _).
  assert (Lf : List.length (fst full) = List.length intensities
               /\ List.length (snd full) = List.length intensities).
  { unfold full. destruct ((beta =? 1) && (gamma =? 1)).
    - unfold calcFRET, calcStoi, correctDA, default_clip_range.
      cbn [fst snd]. now rewrite !length_map.
    - unfold correctedES, correctDA, default_clip_range. cbn [fst snd].
      now rewrite !length_map. }
  destruct full as [Et St]. cbn [fst snd] in *. destruct Lf as [LE LS].
  split; [exact LE|]. split; [exact LS|].
  rewrite !(slice_to_nonneg _ max_frames) by assumption.
  rewrite !(slice_to_nonneg _ (min_real bleaches)) by assumption.
  rewrite !length_firstn, LE, LS.
  assert (K : forall n, Nat.min (capped (min_real bleaches) n) n
                        = capped (min_real bleaches) n).
  { intros n. destruct (min_real bleaches); simpl; lia. }
  assert (K2 : forall m, Nat.min (capped max_frames m) m = capped max_frames m).
  { intros m. destruct max_frames; simpl; lia. }
  rewrite K, !firstn_firstn, K2. fold n_kept.
  repeat split; reflexivity.
Qed.

Lemma dropBleachedFrames_prefix_witness :
  List.length
    (fst (dropBleachedFrames
            [mkFrame 3 1 2 1 5 1; mkFrame 4 1 2 1 5 1; mkFrame 1 1 1 1 1 1]
            [Some 2%Z; None] (Some 5%Z) 0 0 1 1)) = 2%nat.
Proof.
  refine (proj1 (proj2 (proj2 (proj2
    (dropBleachedFrames_prefix
       [mkFrame 3 1 2 1 5 1; mkFrame 4 1 2 1 5 1; mkFrame 1 1 1 1 1 1]
       [Some 2%Z; None] (Some 5%Z) 0 0 1 1 _ _))))).
  - intros z [H|[H|[]]]; [injection H as <-; lia|discriminate].
  - intros k [= <-]. lia.
Defined.

End Bleached.

(** ** Trimming and the correction factors *)

Section Trim.
Local Open Scope float_scope.

Lemma mask_filter (a : list float) (cond : list bool) :
  List.length a = List.length cond ->
  mask a cond = Return (map fst (filter snd (combine a cond))).
Proof.
  revert cond. induction a as [|x a IH]; intros [|c cond] H; simpl in *;
    try discriminate; [reflexivity|].
  rewrite IH by lia. cbn [Py.bind]. destruct c; reflexivity.
Qed.

Lemma shapes_concat (E S : list (list float)) :
  map (@List.length float) E = map (@List.length float) S ->
  forallb (fun p => (fst p =? snd p)%nat)
          (combine (map (@List.length float) E) (map (@List.length float) S))
    = true /\
  List.length E = List.length S /\
  List.length (List.concat E) = List.length (List.concat S).
Proof.
  revert S. induction E as [|e E IH]; intros [|s S] H; simpl in *;
    try discriminate; [auto|].
  injection H as H1 H2. destruct (IH S H2) as (I1 & I2 & I3).
  rewrite H1, Nat.eqb_refl, I1, !length_app, H1, I2, I3. auto.
Qed.

Lemma trimmed_pairs (e s : list float) :
  List.length e = List.length s ->
  let idx := map (fun x => (-0.3 <? x) && (x <? 1.3)) s in
  let E' := map fst (filter snd (combine e idx)) in
  let S' := map fst (filter snd (combine s idx)) in
  combine E' S'
    = filter (fun es => (-0.3 <? snd es) && (snd es <? 1.3)) (combine e s) /\
  List.length E' = List.length S' /\
  Forall (in_open_range (-0.3) 1.3) S'.
Proof.
  revert s. induction e as [|x e IH]; intros [|y s] Hc; simpl in *;
    try discriminate.
  - repeat split; constructor.
  - destruct (IH s ltac:(lia)) as (I1 & I2 & I3).
    destruct ((-0.3 <? y) && (y <? 1.3)) eqn:C; simpl.
    + apply andb_true_iff in C. rewrite I1, I2. repeat split; auto.
    + auto.
Qed.

(** For two lists of equally long traces with the same shape, [trimES]
    returns the pairs (E, S), read trace by trace, whose S lies strictly
    between -0.3 and 1.3, in their order: as many E as S, and every S left
    is inside that range. *)
Theorem trimES_kept (E S : list (list float)) :
  rectangular E = true -> rectangular S = true ->
  map (@List.length float) E = map (@List.length float) S ->
  exists E' S',
    trimES E S = Return (E', S') /\
    combine E' S'
      = filter (fun es => (-0.3 <? snd es) && (snd es <? 1.3))
               (combine (List.concat E) (List.concat S)) /\
    List.length E' = List.length S' /\
    Forall (in_open_range (-0.3) 1.3) S'.
Proof.
  intros RE RS Hshape. unfold trimES. rewrite RE, RS. cbn [andb negb].
  destruct (shapes_concat E S Hshape) as (H1 & H2 & Hc).
  rewrite H1, H2, Nat.eqb_refl. cbn [andb negb].
  rewrite !mask_filter by (rewrite length_map; congruence).
  cbn [Py.bind]. eexists. eexists. split; [reflexivity|].
  apply (trimmed_pairs _ _ Hc).
Qed.

Lemma trimES_kept_witness :
  exists E' S',
    trimES [[0.1; 0.2]; [0.3; 0.4]] [[0.5; 1.3]; [nan; -0.2]]
      = Return (E', S') /\
    List.length E' = List.length S'.
Proof.
  destruct (trimES_kept [[0.1; 0.2]; [0.3; 0.4]] [[0.5; 1.3]; [nan; -0.2]]
              eq_refl eq_refl eq_refl) as (E' & S' & H & _ & L & _).
  exists E', S'. split; [exact H|exact L].
Defined.

(** The factors [betaGammaFactor] returns are never NaN. *)
Theorem betaGammaFactor_not_nan
    (gelsd : list (float * float) -> list float -> option (float * float))
    (E_app S_app : list float) (beta gamma : float) :
  betaGammaFactor gelsd E_app S_app = Return (beta, gamma) ->
  Np.isnan beta = false /\ Np.isnan gamma = false.
Proof.
  unfold betaGammaFactor.
  destruct (mask E_app _) as [E'|]; [|discriminate]. cbn [Py.bind].
  destruct (mask S_app _) as [S'|]; [|discriminate]. cbn [Py.bind].
  destruct (leastsq_line gelsd E' _) as [[slope intercept]|]; [|discriminate].
  cbn [Py.bind existsb].
  destruct (Np.isnan (intercept + slope - 1)) eqn:N1; cbn [orb].
  - intros [= <- <-]. split; reflexivity.
  - destruct (Np.isnan ((intercept - 1) / (intercept + slope - 1))) eqn:N2;
      cbn [orb].
    + intros [= <- <-]. split; reflexivity.
    + destruct (Np.isnan slope || (Np.isnan intercept || false)).
      * intros [= <- <-]. split; reflexivity.
      * intros [= <- <-]. split; assumption.
Qed.

Lemma betaGammaFactor_not_nan_witness :
  Np.isnan 2 = false /\ Np.isnan 0.5 = false.
Proof.
  apply (betaGammaFactor_not_nan (fun _ _ => Some (1, 2))
           [0.25; 0.5] [0.5; 0.4]).
  reflexivity.
Defined.

End Trim.

(** ** Runs of equal values *)

Section GroupingProps.
Variable A : Type.
Variable eq : A -> A -> bool.

Lemma groupby_from_segments (l : list A) (key : A) (n : nat) (done : list A) :
  n = S (List.length done) ->
  Forall (fun x => eq key x = true) done ->
  exists seg segs,
    List.concat ((key :: seg) :: segs) = ((key :: done) ++ l)%list /\
    Forall (run_of eq) ((key :: seg) :: segs) /\
    breaks eq ((key :: seg) :: segs) /\
    map snd (groupby_from A eq key n l)
      = map (@List.length A) ((key :: seg) :: segs).
Proof.
  revert key n done. induction l as [|x t IH]; intros key n done Hn Hdone.
  - exists done, []. simpl. rewrite !app_nil_r. subst n. repeat split; auto.
  - cbn [groupby_from]. destruct (eq key x) eqn:E.
    + destruct (IH key (S n) (done ++ [x])%list)
        as (seg & segs & Hc & Hr & Hb & Hm).
      * rewrite length_app. simpl. lia.
      * apply Forall_app. split; [assumption|].
        constructor; [assumption|constructor].
      * exists seg, segs. split; [|auto].
        rewrite Hc. simpl. rewrite <- app_assoc. reflexivity.
    + destruct (IH x 1%nat []) as (seg & segs & Hc & Hr & Hb & Hm);
        [reflexivity|constructor|].
      exists done, ((x :: seg) :: segs). split; [|split; [|split]].
      * cbn [List.concat] in *. rewrite Hc. simpl. reflexivity.
      * constructor; [exact Hdone|exact Hr].
      * split; [exact E|exact Hb].
      * cbn [map snd]. rewrite Hm. subst n. reflexivity.
Qed.

Lemma segments_from_offsets (segs : list (list A)) (pre : list A)
    (same : list (A * nat)) :
  map snd same = map (@List.length A) segs ->
  segments_from A (pre ++ List.concat segs) (List.length pre) same
  = (offsets (List.length pre) (map (@List.length A) segs),
     map (@List.length A) segs).
Proof.
  revert pre same. induction segs as [|seg segs IH]; intros pre same Hm.
  - destruct same; [reflexivity|discriminate].
  - destruct same as [|[v l] same]; [discriminate|].
    cbn [map snd] in Hm. injection Hm as Hl Hm. subst l.
    cbn [segments_from List.concat map offsets].
    specialize (IH (pre ++ seg)%list same Hm).
    rewrite <- app_assoc, length_app in IH. rewrite IH.
    rewrite skipn_app, skipn_all, Nat.sub_diag. cbn [skipn app].
    rewrite firstn_app, firstn_all, Nat.sub_diag. cbn [firstn].
    rewrite app_nil_r. reflexivity.
Qed.

Lemma list_sum_lengths (ss : list (list A)) :
  list_sum (map (@List.length A) ss) = List.length (List.concat ss).
Proof.
  induction ss as [|s ss IH]; [reflexivity|].
  cbn [map list_sum List.concat fold_right]. rewrite length_app.
  unfold list_sum in IH. rewrite IH. reflexivity.
Qed.

(** [count_adjacent_values] cuts the array into its maximal runs: segments
    that are not empty, whose elements equal the segment's first one and
    whose first element differs from that of the segment before; it
    returns their start indices and lengths, and the lengths add up to the
    length of the array. *)
Theorem count_adjacent_values_segments (arr : list A) :
  exists segs : list (list A),
    List.concat segs = arr /\
    Forall (run_of eq) segs /\
    breaks eq segs /\
    count_adjacent_values A eq arr
      = (offsets 0 (map (@List.length A) segs), map (@List.length A) segs) /\
    list_sum (snd (count_adjacent_values A eq arr)) = List.length arr.
Proof.
  unfold count_adjacent_values. destruct arr as [|x t].
  - exists []. repeat split; constructor.
  - cbn [groupby].
    destruct (groupby_from_segments t x 1 [] eq_refl (Forall_nil _))
      as (seg & segs & Hc & Hr & Hb & Hm).
    exists ((x :: seg) :: segs).
    pose proof (segments_from_offsets ((x :: seg) :: segs) [] _ Hm) as Hs.
    cbn [app List.length] in Hs. rewrite Hc in Hs. cbn [app] in Hs, Hc.
    split; [exact Hc|]. split; [exact Hr|]. split; [exact Hb|].
    split; [exact Hs|]. rewrite Hs. cbn [snd].
    rewrite list_sum_lengths, Hc. reflexivity.
Qed.

Lemma groupby_from_length (l : list A) (key : A) (n : nat) :
  (1 <= List.length (groupby_from A eq key n l))%nat.
Proof.
  revert key n. induction l as [|x t IH]; intros key n; simpl; [lia|].
  destruct (eq key x); [apply IH|simpl; lia].
Qed.

Lemma groupby_from_one (l : list A) (key : A) (n : nat) :
  (List.length (groupby_from A eq key n l) <= 1)%nat <->
  forallb (fun r => eq key r) l = true.
Proof.
  revert n. induction l as [|x t IH]; intros n; simpl.
  - split; auto.
  - destruct (eq key x); simpl.
    + apply IH.
    + split; [|discriminate]. intros H.
      pose proof (groupby_from_length t x 1). lia.
Qed.

Lemma segments_from_length (arr : list A) (n : nat) (same : list (A * nat)) :
  List.length (fst (segments_from A arr n same)) = List.length same.
Proof.
  revert n. induction same as [|[v l] same IH]; intros n; [reflexivity|].
  cbn [segments_from]. specialize (IH (n + l)%nat).
  destruct (segments_from A arr (n + l) same). simpl in *. now rewrite IH.
Qed.

(** [all_equal] holds exactly of the arrays in which
    [count_adjacent_values] finds at most one segment. *)
Theorem all_equal_one_segment (arr : list A) :
  all_equal A eq arr = true <->
  (List.length (fst (count_adjacent_values A eq arr)) <= 1)%nat.
Proof.
  unfold count_adjacent_values. rewrite segments_from_length.
  destruct arr as [|x t]; simpl.
  - split; auto.
  - symmetry. apply groupby_from_one.
Qed.

End GroupingProps.

(** ** The transition table of any idealized signal *)

Section GeneralTable.
Local Open Scope float_scope.

Lemma kept_rows_cons2 (t : Z) (c : nat) (first x x' : float)
    (y'' : list float) :
  kept_rows t c first (x :: x' :: y'') =
  if jump x x'
  then Pd.mkLfRow t x x' c :: kept_rows (t + 1) (S c) first (x' :: y'')
  else kept_rows (t + 1) c first (x' :: y'').
Proof. reflexivity. Qed.

Lemma ddl_kept_rows (y' : list float) (t : Z) (p : float) (c : nat)
    (first x : float) :
  Pd.drop_duplicates_last (rows_from t p c first (x :: y')) =
  kept_rows t (if jump p x then S c else c) first (x :: y').
Proof.
  revert t p c x. induction y' as [|x' y'' IH]; intros t p c x.
  - reflexivity.
  - rewrite rows_from_cons. cbn [Pd.drop_duplicates_last Pd.state_jump hd].
    set (c' := if jump p x then S c else c).
    rewrite kept_rows_cons2, IH.
    destruct (jump x x') eqn:J.
    + rewrite existsb_key_false; [reflexivity|].
      rewrite rows_from_change_prev by exact J. apply rows_from_keys.
    + rewrite rows_from_cons, J. cbn [existsb Pd.state_jump].
      rewrite Nat.eqb_refl. reflexivity.
Qed.

Lemma kept_rows_nonempty (y' : list float) (t : Z) (c : nat)
    (first x : float) :
  kept_rows t c first (x :: y') <> [].
Proof.
  revert t c x. induction y' as [|x' y'' IH]; intros t c x; [discriminate|].
  rewrite kept_rows_cons2. destruct (jump x x'); [discriminate|apply IH].
Qed.

Lemma table_from_lifetimes (K : list Pd.LfRow) (tp : Z) :
  Np.map2 (fun r l => mkTransition (Pd.y_fit r) (Pd.y_after r) l) K
    (map Np.float_of_Z
         (Np.map2 (fun prev cur => (cur - prev)%Z)
                  (tp :: map Pd.time K) (map Pd.time K)))
  = table_from (Some tp) K.
Proof.
  revert tp. induction K as [|r K IH]; intros tp; [reflexivity|].
  cbn [map Np.map2 table_from]. f_equal. apply IH.
Qed.

Lemma table_from_nonempty (K : list Pd.LfRow) (tprev : option Z) :
  K <> [] -> table_from tprev K <> [].
Proof. destruct K; [congruence|discriminate]. Qed.

Lemma changes_cons2 (t : Z) (tprev : option Z) (x x' : float)
    (y'' : list float) :
  changes t tprev (x :: x' :: y'') =
  if jump x x' then
    mkTransition x x'
      (match tprev with
       | None => nan
       | Some tp => Np.float_of_Z (t - tp)
       end)
      :: changes (t + 1) (Some t) (x' :: y'')
  else changes (t + 1) tprev (x' :: y'').
Proof. reflexivity. Qed.

Lemma removelast_table (y : list float) (t : Z) (c : nat) (first : float)
    (tprev : option Z) :
  removelast (table_from tprev (kept_rows t c first y)) = changes t tprev y.
Proof.
  revert t c tprev. induction y as [|x y' IH]; intros t c tprev;
    [reflexivity|].
  destruct y' as [|x' y'']; [reflexivity|].
  rewrite kept_rows_cons2, changes_cons2. destruct (jump x x').
  - cbn [table_from Pd.time Pd.y_fit Pd.y_after].
    rewrite <- IH with (c := S c).
    remember (table_from (Some t)
                (kept_rows (t + 1) (S c) first (x' :: y''))) as T.
    destruct T as [|a T]; [|reflexivity].
    exfalso. symmetry in HeqT. revert HeqT.
    apply table_from_nonempty, kept_rows_nonempty.
  - apply IH.
Qed.

Lemma transitions_changes (y : list float) :
  transitions y = changes 1 None y.
Proof.
  destruct y as [|x y']; [reflexivity|].
  unfold transitions. rewrite lf_rows_rows_from, ddl_kept_rows, jump_self.
  rewrite <- (removelast_table (x :: y') 1 0 x None). f_equal.
  destruct (kept_rows 1 0 x (x :: y')) as [|r K]; [reflexivity|].
  rewrite lifetimes_cons, table_from_lifetimes. reflexivity.
Qed.

(** For every idealized signal, runs or not, NaN or not, the transition
    table has one row per frame whose value differs from the next one
    ([abs(diff) > 0]), with the two values and the number of frames since
    the previous such frame, NaN in the first row; so every row is a
    change, and there are fewer rows than frames. *)
Theorem transitions_are_changes (y : list float) :
  transitions y = changes 1 None y /\
  Forall (fun r => jump (y_before r) (y_after r) = true) (transitions y) /\
  (List.length (transitions y) < Nat.max 1 (List.length y))%nat.
Proof.
  rewrite transitions_changes. split; [reflexivity|].
  generalize 1%Z as t, (@None Z) as tprev.
  induction y as [|x y' IH]; intros t tprev.
  - split; [constructor|simpl; lia].
  - destruct y' as [|x' y'']; [split; [constructor|simpl; lia]|].
    rewrite changes_cons2. destruct (jump x x') eqn:J.
    + destruct (IH (t + 1)%Z (Some t)) as [I1 I2]. split.
      * constructor; [exact J|exact I1].
      * cbn [List.length] in *. lia.
    + destruct (IH (t + 1)%Z tprev) as [I1 I2]. split; [exact I1|].
      cbn [List.length] in *. lia.
Qed.

End GeneralTable.

(** ** The model loop and the result of [fit_hmm] *)

Section HmmLoop.
Local Open Scope float_scope.

Variable GMMHMM : Type.
Variable fit : nat -> list (list float) -> result GMMHMM.
Variable score : GMMHMM -> list (list float) -> result float.
Variable predict : GMMHMM -> list (list float) -> list nat.
Variable log : float -> float.
Variable median : list float -> float.

Lemma fit_candidates_length (X : list (list float)) (ks : list nat)
    (scores : list float) (models : list GMMHMM) :
  fit_candidates GMMHMM fit score log X ks = Return (scores, models) ->
  List.length scores = List.length ks /\
  List.length models = List.length ks.
Proof.
  revert scores models.
  induction ks as [|k ks IH]; intros scores models; simpl.
  - intros [= <- <-]. split; reflexivity.
  - destruct (fit k X) as [m|]; [|discriminate]. cbn [Py.bind].
    destruct (match score m X with
              | Return logL => Return (_bic log X k logL)
              | Raise ValueError => Return 1000000
              | Raise e => Raise e
              end) as [b|]; [|discriminate].
    cbn [Py.bind].
    destruct (fit_candidates GMMHMM fit score log X ks) as [[ss ms]|];
      [|discriminate].
    cbn [Py.bind fst snd]. intros [= <- <-].
    destruct (IH ss ms eq_refl). simpl. split; congruence.
Qed.

(** When every fit succeeds and scoring raises nothing but [ValueError],
    the loop of [fit_hmm] returns one model and one score per state count:
    the BIC of the model's log-likelihood, or 10e5 where scoring raised. *)
Theorem fit_candidates_penalty (X : list (list float)) (ks : list nat) :
  (forall k, In k ks -> exists m, fit k X = Return m) ->
  (forall m e, score m X = Raise e -> e = ValueError) ->
  exists scores models,
    fit_candidates GMMHMM fit score log X ks = Return (scores, models) /\
    List.length scores = List.length ks /\
    List.length models = List.length ks /\
    forall i k, nth_error ks i = Some k ->
      exists m,
        fit k X = Return m /\ nth_error models i = Some m /\
        nth_error scores i =
          Some (match score m X with
                | Return logL => _bic log X k logL
                | Raise _ => 10e5
                end).
Proof.
  intros Hfit Hscore. induction ks as [|k ks IH].
  - exists [], []. repeat split; try reflexivity.
    intros [|i] k H; discriminate.
  - destruct IH as (ss & ms & E & L1 & L2 & Hn).
    { intros k' Hk'. apply Hfit. now right. }
    destruct (Hfit k (or_introl eq_refl)) as (m & Hm).
    cbn [fit_candidates]. rewrite Hm. cbn [Py.bind].
    assert (B : (match score m X with
                 | Return logL => Return (_bic log X k logL)
                 | Raise ValueError => Return 10e5
                 | Raise e => Raise e
                 end)
                = Return (match score m X with
                          | Return logL => _bic log X k logL
                          | Raise _ => 10e5
                          end)).
    { destruct (score m X) as [logL|e] eqn:S; [reflexivity|].
      rewrite (Hscore m e S). reflexivity. }
    rewrite B. cbn [Py.bind]. rewrite E. cbn [Py.bind fst snd].
    eexists. eexists. split; [reflexivity|].
    split; [simpl; congruence|]. split; [simpl; congruence|].
    intros [|i] k' H.
    + injection H as <-. exists m. repeat split; auto.
    + apply (Hn i k' H).
Qed.

(** Whenever [fit_hmm] returns, at least three state counts were tried,
    the idealized signal has one value per observation, the index counts
    the frames from 1, and the lifetimes are the transition table of the
    idealized signal. *)
Theorem fit_hmm_returns
    (X : list (list float)) (y : list float) (n_components_max : nat)
    (bic_tol : float)
    (idealized : list float) (idealized_idx : list Z)
    (lifetimes : list Transition) :
  fit_hmm GMMHMM fit score predict log median X y n_components_max bic_tol
    = Return (idealized, idealized_idx, lifetimes) ->
  (3 <= n_components_max)%nat /\
  List.length idealized = List.length y /\
  idealized_idx = map (fun i => Z.of_nat i + 1)%Z (seq 0 (List.length y)) /\
  lifetimes = changes 1 None idealized.
Proof.
  unfold fit_hmm.
  destruct (fit_candidates GMMHMM fit score log X (seq 1 n_components_max))
    as [[scores models]|] eqn:FC; [|discriminate].
  cbn [Py.bind].
  destruct (fit_candidates_length _ _ _ _ FC) as [L1 _].
  rewrite length_seq in L1.
  destruct (_heuristic_bic scores bic_tol) as [idx_best|] eqn:HB;
    [|discriminate].
  cbn [Py.bind].
  assert (H3 : (3 <= n_components_max)%nat).
  { unfold _heuristic_bic, Np.argpartition in HB.
    destruct (Nat.ltb_spec 2 (List.length scores)); [lia|discriminate]. }
  destruct (nth_error models idx_best) as [best_model|]; [|discriminate].
  destruct (Nat.eqb_spec (List.length y) (List.length (predict best_model X)))
    as [HL|]; [|discriminate].
  cbn [negb]. intros [= <- <- <-].
  assert (LY : List.length (y_fit_of median (predict best_model X) y)
               = List.length y).
  { unfold y_fit_of. rewrite length_map. congruence. }
  split; [exact H3|]. split; [exact LY|]. split; [now rewrite LY|].
  apply transitions_changes.
Qed.

End HmmLoop.

Lemma fit_candidates_penalty_witness :
  exists scores models,
    fit_candidates nat Stub.fit Stub.score Stub.log [[1]; [2]]%float
                   [1; 2; 3]%nat = Return (scores, models) /\
    nth_error scores 1 = Some 10e5%float.
Proof.
  destruct (fit_candidates_penalty nat Stub.fit Stub.score Stub.log
              [[1]; [2]]%float [1; 2; 3]%nat)
    as (scores & models & E & _ & _ & H).
  - intros k _. exists k. reflexivity.
  - intros m e. unfold Stub.score.
    destruct (m =? 2)%nat; [now intros [= <-]|discriminate].
  - exists scores, models. split; [exact E|].
    destruct (H 1%nat 2%nat eq_refl) as (m & Hm & _ & Hs).
    injection Hm as <-. exact Hs.
Defined.

Lemma fit_hmm_returns_witness :
  exists idealized idealized_idx lifetimes,
    fit_hmm nat Stub.fit Stub.score Stub.predict Stub.log Stub.median
            [[1]; [2]; [3]]%float [0.25; 0.5; 0.75]%float 3 20
      = Return (idealized, idealized_idx, lifetimes) /\
    List.length idealized = 3%nat /\
    lifetimes = changes 1 None idealized.
Proof.
  destruct (fit_hmm nat Stub.fit Stub.score Stub.predict Stub.log Stub.median
              [[1]; [2]; [3]]%float [0.25; 0.5; 0.75]%float 3 20)
    as [[[idealized idealized_idx] lifetimes]|] eqn:E;
    [|vm_compute in E; discriminate].
  exists idealized, idealized_idx, lifetimes. split; [reflexivity|].
  destruct (fit_hmm_returns nat Stub.fit Stub.score Stub.predict Stub.log
              Stub.median _ _ _ _ _ _ _ E) as (_ & L & _ & T).
  split; [exact L|exact T].
Defined.

(** ** The Gaussian mixture fit *)

Section Sorting.
Local Open Scope float_scope.
Variable A : Type.
Variable key : A -> float.

Lemma insert_by_perm (x : A) (l : list A) :
  Permutation (Pd.insert_by key x l) (x :: l).
Proof.
  induction l as [|y t IH]; simpl; [reflexivity|].
  destruct (key y <? key x); [|reflexivity].
  rewrite IH. apply perm_swap.
Qed.

Lemma sorted_by_perm (l : list A) : Permutation (Pd.sorted_by key l) l.
Proof.
  induction l as [|x l IH]; simpl; [reflexivity|].
  rewrite insert_by_perm. now constructor.
Qed.

Lemma insert_by_ascending (x : A) (l : list A) :
  Np.isnan (key x) = false -> no_nan (map key l) ->
  ascending (map key l) -> ascending (map key (Pd.insert_by key x l)).
Proof.
  intros Hx. induction l as [|y t IH]; simpl; intros Hn Hs.
  - repeat constructor.
  - inversion Hn as [|? ? Hy Hn']; subst.
    inversion Hs as [|? ? Hs' Hall]; subst.
    destruct (key y <? key x) eqn:C; simpl.
    + constructor; [now apply IH|].
      apply Forall_forall. intros k Hk. apply in_map_iff in Hk.
      destruct Hk as (z & <- & Hz).
      apply (Permutation_in _ (insert_by_perm x t)) in Hz.
      destruct Hz as [<-|Hz].
      * now apply F64More.ltb_leb.
      * rewrite Forall_forall in Hall. apply Hall. now apply in_map.
    + assert (L : (key x <=? key y) = true) by now apply F64More.nltb_leb.
      constructor; [now constructor|].
      constructor; [exact L|].
      apply Forall_forall. intros k Hk. rewrite Forall_forall in Hall.
      apply (F64More.leb_trans _ _ _ L). now apply Hall.
Qed.

Lemma sorted_by_ascending (l : list A) :
  no_nan (map key l) -> ascending (map key (Pd.sorted_by key l)).
Proof.
  induction l as [|x l IH]; simpl; intros Hn; [constructor|].
  inversion Hn as [|? ? Hx Hn']; subst.
  apply insert_by_ascending; [assumption| |now apply IH].
  unfold no_nan in *. rewrite Forall_forall in *. intros k Hk.
  apply in_map_iff in Hk. destruct Hk as (z & <- & Hz).
  apply Hn'. apply in_map. now apply (Permutation_in _ (sorted_by_perm l)).
Qed.

End Sorting.

Section ArgMin.
Local Open Scope float_scope.

Lemma argmin_scan_spec (l pre : list float) (mp : float) (min_ind : nat) :
  no_nan (pre ++ l) ->
  (min_ind < List.length pre)%nat ->
  nth min_ind pre nan = mp ->
  (forall j, (j < List.length pre)%nat -> (mp <=? nth j pre nan) = true) ->
  (forall j, (j < min_ind)%nat -> (mp <? nth j pre nan) = true) ->
  let i := Np.argmin_scan mp min_ind (List.length pre) l in
  (i < List.length (pre ++ l))%nat /\
  (forall j, (j < List.length (pre ++ l))%nat ->
     (nth i (pre ++ l) nan <=? nth j (pre ++ l) nan) = true) /\
  (forall j, (j < i)%nat ->
     (nth i (pre ++ l) nan <? nth j (pre ++ l) nan) = true).
Proof.
  revert pre mp min_ind.
  induction l as [|x t IH]; intros pre mp min_ind Hn Hlt Hmp Hle Hfirst;
    simpl.
  - rewrite app_nil_r. rewrite Hmp. auto.
  - assert (Hx : Np.isnan x = false).
    { unfold no_nan in Hn. rewrite Forall_forall in Hn. apply Hn.
      apply in_or_app. right. now left. }
    assert (Hm : Np.isnan mp = false).
    { unfold no_nan in Hn. rewrite Forall_forall in Hn. apply Hn.
      apply in_or_app. left. rewrite <- Hmp. now apply nth_In. }
    assert (Eapp : (pre ++ x :: t = (pre ++ [x]) ++ t)%list)
      by now rewrite <- app_assoc.
    assert (Elen : List.length (pre ++ [x]) = S (List.length pre))
      by (rewrite length_app; simpl; lia).
    destruct (mp <=? x) eqn:C; cbn [negb].
    + specialize (IH (pre ++ [x])%list mp min_ind).
      rewrite Elen, <- Eapp in IH. apply IH.
      * exact Hn.
      * lia.
      * rewrite app_nth1 by lia. exact Hmp.
      * intros j Hj. destruct (Nat.eq_dec j (List.length pre)) as [->|].
        -- rewrite app_nth2 by lia. rewrite Nat.sub_diag. exact C.
        -- rewrite app_nth1 by lia. apply Hle. lia.
      * intros j Hj. rewrite app_nth1 by lia. now apply Hfirst.
    + rewrite Hx.
      assert (L : (x <? mp) = true) by now apply F64More.nleb_ltb.
      specialize (IH (pre ++ [x])%list x (List.length pre)).
      rewrite Elen, <- Eapp in IH. apply IH.
      * exact Hn.
      * lia.
      * rewrite app_nth2 by lia. now rewrite Nat.sub_diag.
      * intros j Hj. destruct (Nat.eq_dec j (List.length pre)) as [->|].
        -- rewrite app_nth2 by lia. rewrite Nat.sub_diag.
           now apply F64.leb_refl.
        -- rewrite app_nth1 by lia. apply F64More.ltb_leb.
           apply (F64More.ltb_leb_trans _ _ _ L). apply Hle. lia.
      * intros j Hj. rewrite app_nth1 by lia.
        apply (F64More.ltb_leb_trans _ _ _ L). apply Hle. lia.
Qed.

Lemma argmin_first_lowest (l : list float) (i : nat) :
  no_nan l -> Np.argmin l = Return i ->
  (forall j, (j < List.length l)%nat ->
     (nth i l nan <=? nth j l nan) = true) /\
  (forall j, (j < i)%nat -> (nth i l nan <? nth j l nan) = true).
Proof.
  intros Hn. destruct l as [|x t]; simpl; [discriminate|].
  assert (Hx : Np.isnan x = false) by now inversion Hn.
  rewrite Hx. intros [= <-].
  apply (argmin_scan_spec t [x] x 0); simpl; auto.
  - intros [|j] Hj; [now apply F64.leb_refl|lia].
  - lia.
Qed.

Lemma argmin_scan_bound (l : list float) (mp : float) (m n : nat) :
  (m < n)%nat -> (Np.argmin_scan mp m n l < n + List.length l)%nat.
Proof.
  revert mp m n. induction l as [|y l IH]; intros mp m n Hmn; simpl; [lia|].
  destruct (negb (mp <=? y)).
  - destruct (Np.isnan y); [lia|]. specialize (IH y n (S n)). lia.
  - specialize (IH mp m (S n)). lia.
Qed.

End ArgMin.

Section Mixture.
Local Open Scope float_scope.

Variable GaussianMixture : Type.
Variable gm_fit : nat -> list float -> result GaussianMixture.
Variable gm_bic : GaussianMixture -> list float -> float.
Variable weights_ : GaussianMixture -> list float.
Variable means_ : GaussianMixture -> list float.
Variable covariances_ : GaussianMixture -> list float.

Lemma bics_of_each (arr : list float) (ks : list nat) (bics : list float) :
  bics_of GaussianMixture gm_fit gm_bic arr ks = Return bics ->
  List.length bics = List.length ks /\
  forall j k, nth_error ks j = Some k ->
    exists g, gm_fit k arr = Return g /\
              nth_error bics j = Some (gm_bic g arr).
Proof.
  revert bics. induction ks as [|k ks IH]; intros bics; simpl.
  - intros [= <-]. split; [reflexivity|]. intros [|j] k H; discriminate.
  - destruct (gm_fit k arr) as [g|] eqn:G; [|discriminate]. cbn [Py.bind].
    destruct (bics_of _ _ _ arr ks) as [rest|]; [|discriminate].
    cbn [Py.bind]. intros [= <-].
    destruct (IH rest eq_refl) as [L H]. split; [simpl; congruence|].
    intros [|j] k' Hk; simpl in *.
    + injection Hk as <-. exists g. auto.
    + now apply H.
Qed.

(** The parameters [fit_gaussian_mixture] returns are the (mean, sigma,
    weight) triples of one fitted mixture, with the number of components
    given or found, rearranged; when no mean is NaN they are in ascending
    order of the mean.  A given number of components leaves [bics] empty
    and [best_k] unset. *)
Theorem fit_gaussian_mixture_params
    (arr : list float) (k_states : KStates)
    (params : list (float * float * float)) (bics : list float)
    (best_k : option nat) :
  fit_gaussian_mixture GaussianMixture gm_fit gm_bic
      weights_ means_ covariances_ arr k_states
    = Return (FitDict params bics best_k) ->
  exists k g,
    gm_fit k arr = Return g /\
    match k_states, best_k with
    | KFixed k', None => k = k' /\ bics = []
    | KRange _, Some k' => k = k'
    | _, _ => False
    end /\
    Permutation params
      (combine (combine (means_ g) (map sqrt (covariances_ g)))
               (weights_ g)) /\
    (no_nan (means_ g) ->
     ascending (map (fun tup => fst (fst tup)) params)).
Proof.
  unfold fit_gaussian_mixture.
  destruct (List.length arr <? 2)%nat; [discriminate|].
  set (kb := match k_states with KRange _ => _ | KFixed _ => _ end).
  destruct kb as [[[k bs] bk]|] eqn:K; [|discriminate]. cbn [Py.bind].
  destruct (gm_fit k arr) as [g|] eqn:G; [|discriminate]. cbn [Py.bind].
  intros [= <- <- <-]. exists k, g. split; [exact G|]. split.
  - unfold kb in K. destruct k_states as [ks|k'].
    + destruct (bics_of _ _ _ arr ks) as [b|]; [|discriminate].
      cbn [Py.bind] in K. destruct (Np.argmin b); [|discriminate].
      cbn [Py.bind] in K. now injection K as <- <- <-.
    + now injection K as <- <- <-.
  - split; [apply sorted_by_perm|].
    intros Hn. apply sorted_by_ascending.
    unfold no_nan in *. rewrite Forall_forall in *. intros m Hm.
    apply in_map_iff in Hm. destruct Hm as ([[m' s] w] & <- & Hin).
    apply in_combine_l in Hin. apply in_combine_l in Hin. now apply Hn.
Qed.

(** For a range of state counts, [bics] holds the BIC of a fit for every
    count of the range, in order, and [best_k] is one more than a position
    in it: when no BIC is NaN, the first position with the lowest BIC.  It
    is the position that counts, not the state count found there. *)
Theorem fit_gaussian_mixture_best_k
    (arr : list float) (ks : list nat)
    (params : list (float * float * float)) (bics : list float)
    (best_k : option nat) :
  fit_gaussian_mixture GaussianMixture gm_fit gm_bic
      weights_ means_ covariances_ arr (KRange ks)
    = Return (FitDict params bics best_k) ->
  List.length bics = List.length ks /\
  (forall j k, nth_error ks j = Some k ->
     exists g, gm_fit k arr = Return g /\
               nth_error bics j = Some (gm_bic g arr)) /\
  exists i,
    best_k = Some (S i) /\ (i < List.length ks)%nat /\
    (no_nan bics ->
     (forall j, (j < List.length bics)%nat ->
        (nth i bics nan <=? nth j bics nan) = true) /\
     (forall j, (j < i)%nat -> (nth i bics nan <? nth j bics nan) = true)).
Proof.
  unfold fit_gaussian_mixture.
  destruct (List.length arr <? 2)%nat; [discriminate|].
  destruct (bics_of _ _ _ arr ks) as [b|] eqn:B; [|discriminate].
  cbn [Py.bind].
  destruct (Np.argmin b) as [i|] eqn:Ai; [|discriminate]. cbn [Py.bind].
  destruct (gm_fit (S i) arr) as [g|]; [|discriminate]. cbn [Py.bind].
  intros [= <- <- <-].
  destruct (bics_of_each arr ks b B) as [L H].
  split; [exact L|]. split; [exact H|].
  exists i. split; [reflexivity|].
  assert (Hi : (i < List.length b)%nat).
  { destruct b as [|x t]; [discriminate|]. simpl in Ai.
    injection Ai as <-. destruct (Np.isnan x); simpl; [lia|].
    apply (argmin_scan_bound t x 0 1). lia. }
  split; [lia|].
  intros Hn. apply (argmin_first_lowest b i Hn Ai).
Qed.

End Mixture.

Lemma fit_gaussian_mixture_params_witness :
  exists params,
    fit_gaussian_mixture nat Stub.fit_mixture Stub.bic
        Stub.weights_ Stub.means_ Stub.covariances_
        [0.25; 0.75; 0.5]%float (KFixed 2)
      = Return (FitDict params [] None) /\
    ascending (map (fun tup => fst (fst tup)) params).
Proof.
  destruct (fit_gaussian_mixture nat Stub.fit_mixture Stub.bic
              Stub.weights_ Stub.means_ Stub.covariances_
              [0.25; 0.75; 0.5]%float (KFixed 2))
    as [[|params bics best_k]|] eqn:E; try (vm_compute in E; discriminate).
  destruct (fit_gaussian_mixture_params nat Stub.fit_mixture Stub.bic
              Stub.weights_ Stub.means_ Stub.covariances_ _ _ _ _ _ E)
    as (k & g & _ & Hk & _ & Hs).
  destruct best_k; [destruct Hk|]. destruct Hk as [_ ->].
  exists params. split; [reflexivity|].
  apply Hs. repeat constructor.
Defined.

Lemma fit_gaussian_mixture_best_k_witness :
  exists params bics,
    fit_gaussian_mixture nat Stub.fit_mixture Stub.bic
        Stub.weights_ Stub.means_ Stub.covariances_
        [0.25; 0.75; 0.5]%float (KRange [1; 2; 3]%nat)
      = Return (FitDict params bics (Some 2%nat)) /\
    List.length bics = 3%nat.
Proof.
  destruct (fit_gaussian_mixture nat Stub.fit_mixture Stub.bic
              Stub.weights_ Stub.means_ Stub.covariances_
              [0.25; 0.75; 0.5]%float (KRange [1; 2; 3]%nat))
    as [[|params bics best_k]|] eqn:E; try (vm_compute in E; discriminate).
  destruct (fit_gaussian_mixture_best_k nat Stub.fit_mixture Stub.bic
              Stub.weights_ Stub.means_ Stub.covariances_ _ _ _ _ _ E)
    as (L & _ & _).
  exists params, bics. split; [|exact L].
  vm_compute in E. injection E as _ _ <-. reflexivity.
Defined.

(** ** Shape and errors of [seq_probabilities] *)

Section Probabilities.
Local Open Scope float_scope.

(** For a matrix whose rows all have [shape1] entries, [seq_probabilities]
    returns one probability per column, with the sum of the entries 2 and
    3 as confidence, when the matrix has at least 4 columns and the skip
    column is one of them, and raises [IndexError] otherwise. *)
Theorem seq_probabilities_returns
    (yi : Matrix) (skip_threshold : float) (skip_column : nat) :
  Forall (fun row => List.length row = shape1 yi) (rows yi) ->
  ((4 <= shape1 yi)%nat /\ (skip_column < shape1 yi)%nat ->
   exists p,
     seq_probabilities yi skip_threshold skip_column
       = Return (p, nth 2 p nan + nth 3 p nan) /\
     List.length p = shape1 yi) /\
  ((shape1 yi < 4)%nat \/ (shape1 yi <= skip_column)%nat ->
   seq_probabilities yi skip_threshold skip_column = Raise IndexError).
Proof.
  intros HR. unfold seq_probabilities.
  set (P := filter _ (rows yi)).
  assert (HP : Forall (fun r : list float => List.length r = shape1 yi) P).
  { unfold P. apply Forall_forall. intros r Hr. apply filter_In in Hr.
    destruct Hr as [Hr _]. revert r Hr. now apply Forall_forall. }
  set (p := match P with [] => repeat 0 (shape1 yi) | _ :: _ => _ end).
  assert (Lp : List.length p = shape1 yi).
  { unfold p. destruct P as [|first rest]; [apply repeat_length|].
    inversion HP as [|? ? Hf Hrest]; subst.
    rewrite !length_map. now apply sum_axis0_length. }
  clearbody p. split.
  - intros [H4 Hc]. destruct (Nat.ltb_spec skip_column (shape1 yi)); [|lia].
    cbn [negb]. exists p. split; [|exact Lp].
    destruct p as [|x0 [|x1 [|x2 [|x3 p]]]]; simpl in Lp; try lia.
    reflexivity.
  - intros [H4|Hc].
    + destruct (negb _); [reflexivity|].
      destruct p as [|x0 [|x1 [|x2 [|x3 p]]]]; simpl in Lp; try lia;
        reflexivity.
    + destruct (Nat.ltb_spec skip_column (shape1 yi)); [lia|]. reflexivity.
Qed.

Lemma seq_probabilities_returns_witness :
  seq_probabilities (mkMatrix 3 [[0.25; 0.5; 0.25]]) 0.5 0
    = Raise IndexError.
Proof.
  apply (proj2 (seq_probabilities_returns
                  (mkMatrix 3 [[0.25; 0.5; 0.25]]) 0.5 0
                  ltac:(repeat constructor))).
  left. simpl. lia.
Defined.

End Probabilities.

(** ** Reading iSMS files, and the channels after export and import *)

Section Loader.
Local Open Scope float_scope.
Local Open Scope string_scope.

(** A file exported by iSMS is read with eight or with five columns; any
    other number raises [ValueError].  Five columns are the three raw
    intensities, S and E: the trace gets them with zero backgrounds. *)
Theorem loadTraceFromAscii_iSMS_columns (basename : string) (f : AsciiFile) :
  first_line f = "Exported by iSMS" ->
  (List.length (table f) <> 8%nat -> List.length (table f) <> 5%nat ->
   loadTraceFromAscii basename f = Raise ValueError) /\
  (forall n0 n1 n2 n3 n4 c0 c1 c2 c3 c4 pair_n movie_name bleaching,
     table f = [(n0, c0); (n1, c1); (n2, c2); (n3, c3); (n4, c4)] ->
     c0 <> [] ->
     fret_pair f = Some pair_n -> movie_filename f = Some movie_name ->
     donor_bleaches f = Some bleaching ->
     exists trace,
       loadTraceFromAscii basename f = Return (Some trace) /\
       int (grn trace) = c0 /\ int (acc trace) = c1 /\
       int (red trace) = c2 /\
       bg (grn trace) = repeat 0%float (List.length c0) /\
       bg (acc trace) = repeat 0%float (List.length c0) /\
       bg (red trace) = repeat 0%float (List.length c0)).
Proof.
  intros Hfirst. split.
  - intros H8 H5. unfold loadTraceFromAscii, read_table. rewrite Hfirst.
    cbn [String.eqb Ascii.eqb Bool.eqb]. unfold set_columns.
    cbn [colnames skipn List.length].
    destruct (Nat.eqb_spec 8 (List.length (table f))); [congruence|].
    destruct (Nat.eqb_spec 5 (List.length (table f))); [congruence|].
    reflexivity.
  - intros n0 n1 n2 n3 n4 c0 c1 c2 c3 c4 pair_n movie_name bleaching
      Ht Hc Hp Hm Hb.
    unfold loadTraceFromAscii, read_table. rewrite Hfirst, Ht, Hp, Hm, Hb.
    destruct c0 as [|x c0]; [congruence|].
    destruct bleaching as [g r|];
      (eexists; split; [reflexivity|]); cbn [int bg grn acc red];
      repeat split; reflexivity.
Qed.

Lemma loadTraceFromAscii_iSMS_columns_witness :
  loadTraceFromAscii "t.txt" Stub.narrow_file = Raise ValueError.
Proof.
  apply (proj1 (loadTraceFromAscii_iSMS_columns "t.txt" Stub.narrow_file
                  eq_refl)); simpl; lia.
Defined.

Lemma column_rows (j : nat) (yp : Matrix) :
  (j < shape1 yp)%nat ->
  column j yp = Return (map (fun row => nth j row nan) (rows yp)).
Proof.
  intros H. unfold column. now destruct (Nat.ltb_spec j (shape1 yp)); [|lia].
Qed.

Lemma map_seq_nth (A B : Type) (g : A -> B) (d : A) (l : list A) :
  map (fun i => g (nth i l d)) (seq 0 (List.length l)) = map g l.
Proof.
  induction l as [|x l IH]; simpl; [reflexivity|]. f_equal.
  rewrite <- seq_shift, map_map. exact IH.
Qed.

Lemma nth_map_in (A : Type) (g : A -> float) (l : list A) (i : nat) (d : A) :
  (i < List.length l)%nat -> nth i (map g l) nan = g (nth i l d).
Proof.
  intros H. rewrite (nth_indep _ nan (g d)) by (rewrite length_map; lia).
  apply map_nth.
Qed.

Lemma values_round_rows (R : list (list float)) :
  rows (values (List.length R)
          (map (fun j => map Np.round4 (map (fun row => nth j row nan) R))
               (seq 0 6)))
  = map round_row R.
Proof.
  unfold values. cbn [rows]. rewrite <- (map_seq_nth _ _ round_row [] R).
  apply map_ext_in. intros i Hi. apply in_seq in Hi.
  rewrite map_map. unfold round_row. apply map_ext. intros j.
  rewrite map_map. now rewrite (nth_map_in _ _ R i []) by lia.
Qed.

Lemma filled_cons (n : nat) (name : string) (c : list float)
    (df : DataFrame) :
  List.length c = n -> written c -> filled n df ->
  filled n ((name, map Np.round4 c) :: df).
Proof.
  intros L W F. constructor; [|exact F]. cbn [snd].
  split; [now rewrite length_map|exact W].
Qed.

(** For every trace with at least one frame all of whose cells are written
    as numbers, export followed by import gives a trace whose intensities
    and backgrounds are the original ones rounded to 4 decimal places, with
    the frames counted from 1; the classifier output comes back rounded,
    six columns wide, and its class probabilities and confidence are
    computed anew from the rounded output; a trace without classifier
    output comes back without. *)
Theorem export_import_channels
    (basename : string) (trace : TraceContainer) (len : nat) :
  well_shaped trace (S len) ->
  all_written trace ->
  exists f trace',
    exportTrace trace = Return f /\
    loadTraceFromAscii basename f = Return (Some trace') /\
    intensities trace' = map round_frame (intensities trace) /\
    int (grn trace') = map Np.round4 (int (grn trace)) /\
    int (acc trace') = map Np.round4 (int (acc trace)) /\
    int (red trace') = map Np.round4 (int (red trace)) /\
    frames trace' = map (fun i => Z.of_nat i + 1)%Z (seq 0 (S len)) /\
    frames_max trace' = Some (Z.of_nat (S len)) /\
    match y_pred trace with
    | None =>
        y_pred trace' = None /\ y_class trace' = None /\
        confidence trace' = None
    | Some yp =>
        exists yp' p c,
          y_pred trace' = Some yp' /\
          shape1 yp' = 6%nat /\ rows yp' = map round_row (rows yp) /\
          seq_probabilities yp' 0.5 0 = Return (p, c) /\
          y_class trace' = Some p /\ confidence trace' = Some c
    end.
Proof.
  destruct trace
    as [mv pn nm [gi gb gbl] [ai ab abl] [ri rb rbl] Es Ss yp yc cf fr fm].
  unfold well_shaped, all_written, raw_written, intensities, exportTrace,
    export_columns.
  cbn [int bg bleach grn acc red fret stoi y_pred movie n].
  intros (Hgi & Hgb & Hai & Hab & Hri & Hrb & HE & HS & Hyp)
         ((Wgb & Wab & Wrb & Wgi & Wai & Wri) & WS & WE & Wyp).
  destruct (frames_nonempty _ (map Np.round4 gi) len) as (z & zs & Hfr);
    [now rewrite length_map|].
  assert (Hfr' : map (fun i => Z.of_nat i + 1)%Z
                     (seq 0 (List.length (map Np.round4 gi)))
                 = map (fun i => Z.of_nat i + 1)%Z (seq 0 (S len)))
    by now rewrite length_map, Hgi.
  assert (Hmax : Some (Z.of_nat (List.length (map Np.round4 gi)))
                 = Some (Z.of_nat (S len)))
    by now rewrite length_map, Hgi.
  destruct yp as [yp|].
  - destruct Hyp as [Hsh Hrows].
    rewrite !column_rows by lia. cbn [Py.bind app combine ml_cols].
    unfold DataFrame_of. cbn [forallb snd].
    rewrite !length_map, Hgb, Hab, Hrb, Hgi, Hai, Hri, HS, HE, Hrows.
    rewrite Nat.eqb_refl. cbn [andb Py.bind].
    match goal with
    | |- exists f _, Return ?F = Return f /\ _ => exists F
    end.
    unfold loadTraceFromAscii, read_table.
    cbn [first_line fret_pair movie_filename donor_bleaches table round map
         fst snd String.eqb Ascii.eqb Bool.eqb Py.bind].
    match goal with
    | |- context [csv_skip_to ?T] =>
        rewrite (csv_skip_to_filled T (S len))
    end.
    2:{ repeat (apply filled_cons;
                [first [assumption | now rewrite length_map]
                |first [assumption | apply Wyp; lia]|]).
        constructor. }
    pose proof (values_round_rows (rows yp)) as HV.
    cbn [seq map] in HV.
    set (Y := values (List.length (rows yp)) _) in HV.
    destruct (seq_probabilities_values (List.length (rows yp))
                (map Np.round4 (map (fun row => nth 0 row nan) (rows yp)))
                (map Np.round4 (map (fun row => nth 1 row nan) (rows yp)))
                (map Np.round4 (map (fun row => nth 2 row nan) (rows yp)))
                (map Np.round4 (map (fun row => nth 3 row nan) (rows yp)))
                (map Np.round4 (map (fun row => nth 4 row nan) (rows yp)))
                (map Np.round4 (map (fun row => nth 5 row nan) (rows yp))))
      as ([p c] & Hp).
    fold Y in Hp.
    unfold read_channels.
    cbn [has_column columns map fst existsb orb String.eqb Ascii.eqb
         Bool.eqb getitems getitem ml_cols hd Py.bind].
    rewrite (length_map Np.round4
               (map (fun row => nth 0 row nan) (rows yp))),
      (length_map (fun row : list float => nth 0 row nan) (rows yp)).
    fold Y. rewrite Hp.
    cbn [Py.bind set_columns colnames ml_cols app List.length map
         strip_period lstrip_period rstrip_period Nat.eqb combine snd fst
         getitem String.eqb Ascii.eqb Bool.eqb backgrounds].
    rewrite Hfr.
    eexists. split; [reflexivity|]. split; [reflexivity|].
    cbn [int grn acc red bg frames frames_max y_pred y_class confidence
         option_map fst snd].
    rewrite <- Hfr, Hfr', Hmax, zip_frames_round.
    repeat (split; [reflexivity|]).
    exists Y, p, c.
    repeat split; [exact HV|exact Hp].
  - cbn [Py.bind]. unfold DataFrame_of. cbn [forallb snd].
    rewrite Hgb, Hab, Hrb, Hgi, Hai, Hri, HS, HE.
    rewrite Nat.eqb_refl. cbn [andb Py.bind].
    match goal with
    | |- exists f _, Return ?F = Return f /\ _ => exists F
    end.
    unfold loadTraceFromAscii, read_table.
    cbn [first_line fret_pair movie_filename donor_bleaches table round map
         fst snd String.eqb Ascii.eqb Bool.eqb Py.bind].
    match goal with
    | |- context [csv_skip_to ?T] =>
        rewrite (csv_skip_to_filled T (S len))
    end.
    2:{ repeat (apply filled_cons; [assumption|assumption|]).
        constructor. }
    unfold read_channels.
    cbn [has_column columns map fst existsb orb String.eqb Ascii.eqb
         Bool.eqb getitems getitem ml_cols hd Py.bind].
    cbn [Py.bind set_columns colnames ml_cols app List.length map
         strip_period lstrip_period rstrip_period Nat.eqb combine snd fst
         getitem String.eqb Ascii.eqb Bool.eqb backgrounds].
    rewrite Hfr.
    eexists. split; [reflexivity|]. split; [reflexivity|].
    cbn [int grn acc red bg frames frames_max y_pred y_class confidence
         option_map fst snd].
    rewrite <- Hfr, Hfr', Hmax, zip_frames_round.
    repeat split; reflexivity.
Qed.

Lemma export_import_channels_witness :
  exists f trace',
    exportTrace Sample.plain_trace = Return f /\
    loadTraceFromAscii "t.txt" f = Return (Some trace') /\
    intensities trace' = map round_frame (intensities Sample.plain_trace).
Proof.
  destruct (export_import_channels "t.txt" Sample.plain_trace 1)
    as (f & trace' & He & Hl & Hi & _).
  - unfold well_shaped. simpl. repeat split; lia.
  - unfold all_written, raw_written.
    split; [repeat split; repeat constructor|].
    split; [repeat constructor|]. split; [repeat constructor|].
    cbn [y_pred Sample.plain_trace Sample.make_trace rows].
    intros [|[|[|[|[|[|k]]]]]] Hk; try lia; repeat constructor.
  - exists f, trace'. split; [exact He|]. split; [exact Hl|exact Hi].
Defined.

End Loader.
